(** * Cuttlefish: a shallow embedding of [bot.py]

    The chat bot of [src/bot.py] parses command arguments, resolves image
    dimensions, talks to a remote image-generation service and relays the
    results to the chat.  This development embeds those parts of the program
    as Rocq functions and proves the properties its specification states.

    Conventions of the embedding.
    - A Python [str] is a [string]: a sequence of 8-bit characters, the
      UTF-8 bytes of the text.  [int], [str.split] and [str.strip] read
      the characters off the bytes and know the blanks and the decimal
      digits of Unicode, as CPython 3.11 does.  [str.lower] is modelled on
      the ASCII range: the only characters outside ASCII whose lower case
      holds an ASCII letter are U+0130 (an i followed by U+0307) and U+212A
      (k), and neither gives the text of a flag or of an orientation, so
      the comparisons the program makes on lower-cased text are those of
      Python.
    - Python integers are [Z].
    - A parsed JSON document is a [json] value; objects are finite maps.
    - Code that raises is a computation in the [exc] monad; effects on the
      outside world (chat transport, HTTP) are logged in a trace of events
      and their outcomes are read from an explicit [world]. *)

From Stdlib Require Import ZArith Ascii String List Lia.
From stdpp Require Import base option list strings gmap pretty.

#[local] Open Scope string_scope.
#[local] Open Scope list_scope.
#[local] Open Scope nat_scope.
#[local] Set Warnings "-register-all,-clear-no-such-hyp".

(** ** Python strings *)

Module Py.

(** [c.isupper()] for an ASCII character. *)
Definition is_upper (c : ascii) : bool :=
  (65 <=? nat_of_ascii c)%nat && (nat_of_ascii c <=? 90)%nat.

Definition lower_char (c : ascii) : ascii :=
  if is_upper c then ascii_of_nat (nat_of_ascii c + 32) else c.

(** [s.lower()] *)
Fixpoint lower (s : string) : string :=
  match s with
  | EmptyString => EmptyString
  | String c s' => String (lower_char c) (lower s')
  end.

(** The code of the lower case of the ASCII character with code [n]. *)
Definition lower_code (n : N) : N :=
  if ((65 <=? n) && (n <=? 90))%N then (n + 32)%N else n.

(** *** The characters of UTF-8 text *)

Definition byte (c : ascii) : N := N_of_ascii c.

(** A continuation byte [10xxxxxx] at the head of [s]: its six bits, and
    the text after it. *)
Definition continuation (s : string) : option (N * string) :=
  match s with
  | String b s' =>
      if ((128 <=? byte b) && (byte b <? 192))%N then Some ((byte b - 128)%N, s')
      else None
  | EmptyString => None
  end.

(** U+FFFD, for bytes that are no UTF-8. *)
Definition replacement : N := 65533%N.

(** The character whose first byte has the value [lead], a byte above the
    ASCII range, and whose other bytes are at the head of [s]: its code
    point and the number of its bytes.  A lead byte announces one, two or
    three continuation bytes; encodings longer than needed are no UTF-8. *)
Definition multibyte (lead : N) (s : string) : N * nat :=
  if ((194 <=? lead) && (lead <? 224))%N then
    match continuation s with
    | Some (x, _) => (((lead - 192) * 64 + x)%N, 2)
    | None => (replacement, 1)
    end
  else if ((224 <=? lead) && (lead <? 240))%N then
    match continuation s with
    | Some (x, s2) =>
        match continuation s2 with
        | Some (y, _) =>
            let cp := (((lead - 224) * 64 + x) * 64 + y)%N in
            if (2048 <=? cp)%N then (cp, 3) else (replacement, 1)
        | None => (replacement, 1)
        end
    | None => (replacement, 1)
    end
  else if ((240 <=? lead) && (lead <? 248))%N then
    match continuation s with
    | Some (x, s2) =>
        match continuation s2 with
        | Some (y, s3) =>
            match continuation s3 with
            | Some (z, _) =>
                let cp := ((((lead - 240) * 64 + x) * 64 + y) * 64 + z)%N in
                if (65536 <=? cp)%N then (cp, 4) else (replacement, 1)
            | None => (replacement, 1)
            end
        | None => (replacement, 1)
        end
    | None => (replacement, 1)
    end
  else (replacement, 1).

(** The character that starts with the byte [a], followed by [s]. *)
Definition head_char (a : ascii) (s : string) : N * nat :=
  if (byte a <? 128)%N then (byte a, 1) else multibyte (byte a) s.

(** The code points of [s], the first [skip] bytes of which belong to a
    character already read. *)
Fixpoint codepoints_from (skip : nat) (s : string) : list N :=
  match s with
  | EmptyString => []
  | String a s' =>
      match skip with
      | S k => codepoints_from k s'
      | O => (head_char a s').1 :: codepoints_from ((head_char a s').2 - 1) s'
      end
  end.

Definition codepoints (s : string) : list N := codepoints_from 0 s.

(** [c.isspace()]: in ASCII the tab, line feed, vertical tab, form feed,
    carriage return, the four separators 0x1c-0x1f and the space; beyond
    ASCII U+0085, U+00A0, U+1680, U+2000-U+200A, U+2028, U+2029, U+202F,
    U+205F and U+3000. *)
Definition is_space (cp : N) : bool :=
  (((9 <=? cp) && (cp <=? 13)) || ((28 <=? cp) && (cp <=? 32)) ||
   (cp =? 133) || (cp =? 160) || (cp =? 5760) ||
   ((8192 <=? cp) && (cp <=? 8202)) ||
   (cp =? 8232) || (cp =? 8233) || (cp =? 8239) || (cp =? 8287) ||
   (cp =? 12288))%N.

(** The number of bytes of the blank at the head of [s]; 0 when [s] does
    not start with a blank. *)
Definition blank_len (s : string) : nat :=
  match s with
  | String a s' => if is_space (head_char a s').1 then (head_char a s').2 else 0
  | EmptyString => 0
  end.

(** The code points of the digit zero of every script with decimal digits
    (Unicode 14, the character database of CPython 3.11); the digits one to
    nine of a script follow its zero. *)
Definition decimal_zeros : list N :=
  [ 48; 1632; 1776; 1984; 2406; 2534; 2662; 2790; 2918; 3046; 3174; 3302;
    3430; 3558; 3664; 3792; 3872; 4160; 4240; 6112; 6160; 6470; 6608; 6784;
    6800; 6992; 7088; 7232; 7248; 42528; 43216; 43264; 43472; 43504; 43600;
    44016; 65296; 66720; 68912; 69734; 69872; 69942; 70096; 70384; 70736;
    70864; 71248; 71360; 71472; 71904; 72016; 72784; 73040; 73120; 92768;
    92864; 93008; 120782; 120792; 120802; 120812; 120822; 123200; 123632;
    125264; 130032 ]%N.

(** The value of a decimal digit, of any script. *)
Definition decimal (cp : N) : option N :=
  (λ zero, (cp - zero)%N) <$>
  find (λ zero, ((zero <=? cp) && (cp <? zero + 10))%N) decimal_zeros.

(** *** [int]

    CPython first rewrites the text into ASCII: a character below 127
    stays, a blank becomes a space, a decimal digit of any script becomes
    its ASCII digit, and anything else becomes a question mark.  The ASCII
    text is then read as a literal in base ten. *)
Definition to_ascii (cp : N) : N :=
  if (cp <? 127)%N then cp
  else if is_space cp then 32%N
  else match decimal cp with
       | Some d => (48 + d)%N
       | None => 63%N
       end.

(** The blanks that the reader of the literal passes over: tab, line feed,
    vertical tab, form feed, carriage return and space. *)
Definition is_ascii_space (c : N) : bool :=
  (((9 <=? c) && (c <=? 13)) || (c =? 32))%N.

Definition digit_of (c : N) : option Z :=
  if ((48 <=? c) && (c <=? 57))%N then Some (Z.of_N c - 48)%Z else None.

Definition is_underscore (c : N) : bool := (c =? 95)%N.

Fixpoint skip_spaces (l : list N) : list N :=
  match l with
  | c :: l' => if is_ascii_space c then skip_spaces l' else l
  | [] => []
  end.

(** The most digits a literal may have ([sys.get_int_max_str_digits()], as
    the interpreter starts): a longer one is a [ValueError]. *)
Definition max_str_digits : N := 4300%N.

(** The end of the literal, with [count] digits read. *)
Definition int_end (acc : Z) (count : N) : option Z :=
  if (max_str_digits <? count)%N then None else Some acc.

(** The digits of a decimal literal after its first digit: digits, single
    underscores between digits, then only blanks. *)
Fixpoint int_digits (acc : Z) (count : N) (after_underscore : bool) (l : list N)
  : option Z :=
  match l with
  | [] => if after_underscore then None else int_end acc count
  | c :: l' =>
      match digit_of c with
      | Some d => int_digits (10 * acc + d)%Z (count + 1)%N false l'
      | None =>
          if is_underscore c then
            if after_underscore then None else int_digits acc count true l'
          else if is_ascii_space c && negb after_underscore then
            if forallb is_ascii_space l' then int_end acc count else None
          else None
      end
  end.

Definition int_unsigned (l : list N) : option Z :=
  match l with
  | c :: l' =>
      match digit_of c with
      | Some d => int_digits d 1%N false l'
      | None => None
      end
  | [] => None
  end.

(** The literal in ASCII: blanks around it are dropped, one sign may lead
    it, and no blank may stand between the sign and the digits. *)
Definition int_ascii (l : list N) : option Z :=
  match skip_spaces l with
  | c :: l' =>
      if (c =? 43)%N then int_unsigned l'
      else if (c =? 45)%N then Z.opp <$> int_unsigned l'
      else int_unsigned (c :: l')
  | [] => None
  end.

(** [int(s)]; [None] stands for [ValueError]. *)
Definition int (s : string) : option Z := int_ascii (to_ascii <$> codepoints s).

(** [sep.join(l)] *)
Fixpoint join (sep : string) (l : list string) : string :=
  match l with
  | [] => EmptyString
  | [x] => x
  | x :: l' => x +:+ sep +:+ join sep l'
  end.

(** [sub in s] on strings: [sub] occurs in [s]. *)
Fixpoint is_prefix (p s : string) : bool :=
  match p, s with
  | EmptyString, _ => true
  | String a p', String b s' => bool_decide (a = b) && is_prefix p' s'
  | String _ _, EmptyString => false
  end.

Fixpoint contains (sub s : string) : bool :=
  is_prefix sub s ||
  match s with
  | EmptyString => false
  | String _ s' => contains sub s'
  end.

(** Truth value of a string: [bool(s)]. *)
Definition truthy_str (s : string) : bool :=
  match s with EmptyString => false | _ => true end.

(** [s.split()]: the maximal runs of characters that are not blanks.  The
    text is read byte by byte; [skip] counts the bytes still to pass of a
    blank of several bytes, and [cur] is the word read so far. *)
Fixpoint split_aux (skip : nat) (cur : string) (s : string) : list string :=
  match s with
  | EmptyString => if truthy_str cur then [cur] else []
  | String c s' =>
      match skip with
      | S k => split_aux k cur s'
      | O =>
          match blank_len (String c s') with
          | S k => (if truthy_str cur then [cur] else []) ++ split_aux k EmptyString s'
          | O => split_aux 0 (cur +:+ String c EmptyString) s'
          end
      end
  end.

Definition split (s : string) : list string := split_aux 0 EmptyString s.

(** [s.lstrip()] *)
Fixpoint lstrip_from (skip : nat) (s : string) : string :=
  match s with
  | EmptyString => EmptyString
  | String c s' =>
      match skip with
      | S k => lstrip_from k s'
      | O =>
          match blank_len (String c s') with
          | S k => lstrip_from k s'
          | O => String c s'
          end
      end
  end.

(** [s.isspace()] or [s] is empty: [s] holds only blanks. *)
Fixpoint all_blank_from (skip : nat) (s : string) : bool :=
  match s with
  | EmptyString => true
  | String c s' =>
      match skip with
      | S k => all_blank_from k s'
      | O =>
          match blank_len (String c s') with
          | S k => all_blank_from k s'
          | O => false
          end
      end
  end.

(** [s.rstrip()] *)
Fixpoint rstrip (s : string) : string :=
  match s with
  | EmptyString => EmptyString
  | String c s' =>
      if all_blank_from 0 (String c s') then EmptyString else String c (rstrip s')
  end.

End Py.

(** ** The argument parser: [parse_command_args] *)

(** The local variables of [parse_command_args]; [idx] is the loop index [i]. *)
Record pstate := PState {
  orientation : string;
  num_images : Z;
  use_max : bool;
  prompt_args : list string;
  idx : nat
}.

Definition clamp_count (n : Z) : Z :=
  if (n <? 1)%Z then 1%Z else if (n >? 10)%Z then 10%Z else n.

(** One turn of the [while] loop; [None] when the condition [i < len(prompt_args)]
    fails.  [l.pop(i)] is [delete i l]. *)
Definition parse_step (s : pstate) : option pstate :=
  let '(PState o n m args i) := s in
  match args !! i with
  | None => None
  | Some tok =>
      let arg := Py.lower tok in
      Some (
        if decide (arg ∈ ["--landscape"; "-l"]) then
          PState "landscape" n m (delete i args) i
        else if decide (arg ∈ ["--portrait"; "-p"]) then
          PState "portrait" n m (delete i args) i
        else if decide (arg ∈ ["--square"; "-s"]) then
          PState "square" n m (delete i args) i
        else if decide (arg ∈ ["--max"; "-max"]) then
          PState o n true (delete i args) i
        else if bool_decide (arg = "-n") && bool_decide (i + 1 < length args) then
          match args !! (i + 1) ≫= Py.int with
          | Some v => PState o (clamp_count v) m (delete i (delete i args)) i
          | None => PState o n m args (i + 1)
          end
        else PState o n m args (i + 1))
  end.

(** The loop, run for at most [fuel] turns. *)
Fixpoint parse_loop (fuel : nat) (s : pstate) : pstate :=
  match fuel with
  | O => s
  | S fuel' =>
      match parse_step s with
      | None => s
      | Some s' => parse_loop fuel' s'
      end
  end.

Definition parse_init (args : list string) : pstate :=
  PState "portrait" 1 false args 0.

(** The state in which the loop of [parse_command_args args] ends: each turn
    removes a token or advances the index, so [length args] turns suffice
    ([parse_final_done]). *)
Definition parse_final (args : list string) : pstate :=
  parse_loop (length args) (parse_init args).

Definition parse_command_args (args : list string) : string * Z * bool * string :=
  let s := parse_final args in
  (orientation s, num_images s, use_max s, Py.join " " (prompt_args s)).

Definition parsed_orientation (r : string * Z * bool * string) : string := r.1.1.1.
Definition parsed_count (r : string * Z * bool * string) : Z := r.1.1.2.
Definition parsed_max (r : string * Z * bool * string) : bool := r.1.2.
Definition parsed_prompt (r : string * Z * bool * string) : string := r.2.

(** ** The model registry and the dimension resolver *)

Record model := Model {
  model_id : string;
  model_name : string;
  supports_reference : bool
}.

Definition MODELS : gmap string model :=
  list_to_map [
    ("flux", Model "runware:101@1" "FLUX Dev" false);
    ("hidream", Model "runware:97@2" "HiDream Pro" false);
    ("kontext", Model "bfl:3@1" "Kontext Pro" true);
    ("kontext-max", Model "bfl:4@1" "Kontext Max" true);
    ("fast", Model "runware:100@1" "FLUX Schnell" false)
  ].

(** [ImageBot.get_dimensions] *)
Definition get_dimensions (model_id orientation : string) : Z * Z :=
  if bool_decide (Py.lower orientation = "square") then (1024, 1024)%Z
  else if Py.contains "bfl" model_id then
    if bool_decide (Py.lower orientation = "landscape") then (1392, 752)%Z
    else (752, 1392)%Z
  else
    if bool_decide (Py.lower orientation = "landscape") then (1344, 704)%Z
    else (704, 1344)%Z.

(** ** JSON values and the Python operations the client applies to them *)

(** A Python [float]: a binary fraction [m * 2 ^ e], an infinity, or no
    number. *)
Inductive pyfloat :=
| FFinite (m e : Z)
| FInfinity (negative : bool)
| FNaN.

(** A document as [json.loads] returns it. *)
Inductive json :=
| JNull
| JBool (b : bool)
| JNum (n : Z)
| JFloat (x : pyfloat)
| JStr (s : string)
| JList (l : list json)
| JObj (m : gmap string json).

(** Computations that may raise: [Raise] stands for any Python [Exception]. *)
Inductive exc (A : Type) :=
| Ret (a : A)
| Raise.
Arguments Ret {A} a.
Arguments Raise {A}.

Module Json.

(** [v == s] for a string [s]. *)
Definition eq_str (v : json) (s : string) : bool :=
  match v with
  | JStr s' => bool_decide (s' = s)
  | _ => false
  end.

(** [bool(v)] *)
Definition truthy (v : json) : bool :=
  match v with
  | JNull => false
  | JBool b => b
  | JNum n => negb (n =? 0)%Z
  | JFloat x => match x with FFinite m _ => negb (m =? 0)%Z | _ => true end
  | JStr s => Py.truthy_str s
  | JList l => match l with [] => false | _ => true end
  | JObj m => negb (bool_decide (m = ∅))
  end.

(** [k in v]: a key of an object, an element of a list, a substring of a
    string; [TypeError] on anything else. *)
Definition contains (k : string) (v : json) : exc bool :=
  match v with
  | JObj m => Ret (bool_decide (is_Some (m !! k)))
  | JList l => Ret (existsb (fun x => eq_str x k) l)
  | JStr s => Ret (Py.contains k s)
  | _ => Raise
  end.

(** [v.get(k, d)]: only objects have the method ([AttributeError] otherwise). *)
Definition get_default (v : json) (k : string) (d : json) : exc json :=
  match v with
  | JObj m => Ret (default d (m !! k))
  | _ => Raise
  end.

(** [v.get(k)]: the default is Python's [None], which is also JSON's null. *)
Definition get (v : json) (k : string) : exc json := get_default v k JNull.

Fixpoint chars (s : string) : list json :=
  match s with
  | EmptyString => []
  | String c s' => JStr (String c EmptyString) :: chars s'
  end.

(** The items a [for] loop over [v] visits: the elements of a list, the
    keys of an object, the characters of a string; [TypeError] otherwise. *)
Definition iter (v : json) : exc (list json) :=
  match v with
  | JList l => Ret l
  | JObj m => Ret (JStr <$> (map_to_list m).*1)
  | JStr s => Ret (chars s)
  | _ => Raise
  end.

End Json.

(** ** Effects: events and the outside world *)

(** What the program does to the outside world, in the order it does it.
    [EditText] and [DeleteMessage] act on the progress message, the only
    message handle a handler keeps. *)
Inductive event :=
| HttpPost (url : string) (payload : json)
| HttpGet (url : string)
| ReplyText (text : string)
| ReplyPhoto (photo : string) (caption : string)
| EditText (text : string)
| DeleteMessage.

(** What the outside world answers.  The [n]-th call of [generate_image]
    draws the token [uuid4 n] and gets its HTTP answers from [post n] and
    [fetch n]; a [Raise] is a network error, and the body of a POST answer
    raises when it is not JSON.  The [n]-th call of the chat transport
    raises when [tg_raises n].  [b64encode] and [b64decode] are the
    functions of Python's [base64] module. *)
Record world := World {
  api_key : option string;
  uuid4 : nat -> string;
  post : nat -> string -> json -> exc (Z * exc json);
  fetch : nat -> string -> exc (Z * string);
  tg_raises : nat -> bool;
  b64encode : string -> string;
  b64decode : string -> exc string
}.

Declare Scope client_scope.
Declare Scope handler_scope.

(** *** The monad of the client: a result or an exception, and the requests made *)

Module Client.

Definition W (A : Type) : Type := exc A * list event.

Definition ret {A} (a : A) : W A := (Ret a, []).
Definition raise {A} : W A := (Raise, []).
Definition lift {A} (e : exc A) : W A := (e, []).
Definition emit (e : event) : W unit := (Ret tt, [e]).
Definition bind {A B} (m : W A) (k : A -> W B) : W B :=
  match m with
  | (Ret a, t) => let '(r, t') := k a in (r, t ++ t')
  | (Raise, t) => (Raise, t)
  end.
(** [try: m except Exception: h] *)
Definition try_except {A} (m : W A) (h : W A) : W A :=
  match m with
  | (Ret a, t) => (Ret a, t)
  | (Raise, t) => let '(r, t') := h in (r, t ++ t')
  end.

End Client.

Notation "'do' x <- m ; k" := (Client.bind m (fun x => k))
  (at level 10, x name, m at level 100, k at level 200, only parsing) : client_scope.
Notation "'do' ' p <- m ; k" := (Client.bind m (fun x => let 'p := x in k))
  (at level 10, p strict pattern, m at level 100, k at level 200, only parsing)
  : client_scope.
Notation "'run' m ; k" := (Client.bind m (fun _ => k))
  (at level 10, m at level 100, k at level 200, only parsing) : client_scope.

(** *** The monad of the handlers: state and exceptions *)

(** The trace so far, and how many client calls and transport calls were made. *)
Record ostate := OState {
  trace : list event;
  gen_calls : nat;
  tg_calls : nat
}.

Module Handler.

Definition M (A : Type) : Type := ostate -> exc A * ostate.

Definition ret {A} (a : A) : M A := fun s => (Ret a, s).
Definition raise {A} : M A := fun s => (Raise, s).
Definition lift {A} (e : exc A) : M A := fun s => (e, s).
Definition bind {A B} (m : M A) (k : A -> M B) : M B :=
  fun s => match m s with
           | (Ret a, s') => k a s'
           | (Raise, s') => (Raise, s')
           end.
(** [try: m except Exception: h] *)
Definition try_except {A} (m : M A) (h : M A) : M A :=
  fun s => match m s with
           | (Ret a, s') => (Ret a, s')
           | (Raise, s') => h s'
           end.

(** A call of the chat transport: it delivers [e] unless it raises. *)
Definition tg (w : world) (e : event) : M unit :=
  fun s =>
    if tg_raises w (tg_calls s) then
      (Raise, OState (trace s) (gen_calls s) (S (tg_calls s)))
    else (Ret tt, OState (trace s ++ [e]) (gen_calls s) (S (tg_calls s))).

(** A call of the client: it gets the number of the call, and its requests
    are added to the trace. *)
Definition call_client {A} (c : nat -> Client.W A) : M A :=
  fun s =>
    let '(r, t) := c (gen_calls s) in
    (r, OState (trace s ++ t) (S (gen_calls s)) (tg_calls s)).

End Handler.

Notation "'do' x <- m ; k" := (Handler.bind m (fun x => k))
  (at level 10, x name, m at level 100, k at level 200, only parsing) : handler_scope.
Notation "'run' m ; k" := (Handler.bind m (fun _ => k))
  (at level 10, m at level 100, k at level 200, only parsing) : handler_scope.

(** ** The generation client: [ImageBot.generate_image] *)

Section client.
#[local] Open Scope client_scope.
Import Client.

(** [session.post(url, json=payload)] in the [n]-th client call. *)
Definition http_post (w : world) (n : nat) (url : string) (payload : json)
  : W (Z * exc json) :=
  run emit (HttpPost url payload);
  lift (post w n url payload).

(** [session.get(url)]: a locator that is no string is refused before any
    request is made. *)
Definition http_get (w : world) (n : nat) (url : json) : W (Z * string) :=
  match url with
  | JStr u => run emit (HttpGet u); lift (fetch w n u)
  | _ => raise
  end.

Definition api_url : string := "https://api.runware.ai/v1".

Definition json_of_key (k : option string) : json :=
  match k with
  | Some key => JStr key
  | None => JNull
  end.

(** [bool(r)] for an [Optional[str]]. *)
Definition truthy_opt (r : option string) : bool :=
  match r with
  | Some b => Py.truthy_str b
  | None => false
  end.

(** The two elements of the job payload, before the reference image is added. *)
Definition base_payload (w : world) (task_uuid prompt model_id : string)
    (width height : Z) : list (gmap string json) :=
  [ list_to_map [
      ("taskType", JStr "authentication");
      ("apiKey", json_of_key (api_key w)) ];
    list_to_map [
      ("taskType", JStr "imageInference");
      ("taskUUID", JStr task_uuid);
      ("positivePrompt", JStr prompt);
      ("width", JNum width);
      ("height", JNum height);
      ("model", JStr model_id);
      ("outputFormat", JStr "JPEG");
      ("includeCost", JBool true);
      ("outputType", JList [JStr "URL"]);
      ("numberResults", JNum 1) ] ].

(** The payload that is sent: [payload[1]["referenceImages"]] is set when a
    reference image is given and the model id contains ["bfl"]. *)
Definition build_payload (w : world) (task_uuid prompt model_id orientation : string)
    (reference_image_base64 : option string) : list (gmap string json) :=
  let '(width, height) := get_dimensions model_id orientation in
  let payload := base_payload w task_uuid prompt model_id width height in
  if truthy_opt reference_image_base64 && Py.contains "bfl" model_id then
    alter (insert "referenceImages"
             (JList [JStr (default EmptyString reference_image_base64)])) 1%nat payload
  else payload.

(** [ImageBot.download_image_as_base64] *)
Definition download_image_as_base64 (w : world) (n : nat) (image_url : json)
  : W (option string) :=
  try_except
    (do '(status, content) <- http_get w n image_url;
     if (status =? 200)%Z then ret (Some (b64encode w content))
     else ret None)
    (ret None).

(** The first loop over the answer: [true] when an element of a top-level
    list has an ["error"]. *)
Fixpoint any_error (items : list json) : exc bool :=
  match items with
  | [] => Ret false
  | item :: items' =>
      match Json.contains "error" item with
      | Ret true => Ret true
      | Ret false => any_error items'
      | Raise => Raise
      end
  end.

(** The check for errors: every element of a top-level list, or else the
    answer itself. *)
Definition has_error (result : json) : exc bool :=
  match result with
  | JList items => any_error items
  | _ => Json.contains "error" result
  end.

(** [result if isinstance(result, list) else result.get("data", [])], as
    the sequence the second loop runs over. *)
Definition items_to_check (result : json) : exc (list json) :=
  match result with
  | JList items => Ret items
  | _ =>
      match Json.get_default result "data" (JList []) with
      | Ret d => Json.iter d
      | Raise => Raise
      end
  end.

(** The condition of the second loop, with Python's short-circuit [and]. *)
Definition item_matches (task_uuid : string) (item : json) : exc bool :=
  match Json.get item "taskType" with
  | Raise => Raise
  | Ret ty =>
      if negb (Json.eq_str ty "imageInference") then Ret false
      else
        match Json.get item "taskUUID" with
        | Raise => Raise
        | Ret u =>
            if negb (Json.eq_str u task_uuid) then Ret false
            else Json.contains "imageURL" item
        end
  end.

(** The second loop: the first matching element with a true locator is
    downloaded; [None] when the loop ends without one. *)
Fixpoint find_image (w : world) (n : nat) (task_uuid : string) (items : list json)
  : W (option string) :=
  match items with
  | [] => ret None
  | item :: items' =>
      do hit <- lift (item_matches task_uuid item);
      if hit then
        do image_url <- lift (Json.get item "imageURL");
        if Json.truthy image_url then download_image_as_base64 w n image_url
        else find_image w n task_uuid items'
      else find_image w n task_uuid items'
  end.

(** The [n]-th call of [generate_image]. *)
Definition generate_image (w : world) (n : nat) (prompt model_id orientation : string)
    (reference_image_base64 : option string) : W (option string) :=
  try_except
    (let task_uuid := uuid4 w n in
     let payload :=
       build_payload w task_uuid prompt model_id orientation reference_image_base64 in
     do '(status, body) <- http_post w n api_url (JList (JObj <$> payload));
     if negb (status =? 200)%Z then ret None
     else
       do result <- lift body;
       do err <- lift (has_error result);
       if err then ret None
       else
         do items <- lift (items_to_check result);
         find_image w n task_uuid items)
    (ret None).

End client.

(** ** The request orchestrator: [generate_image_direct] *)

Definition nl : string := String (ascii_of_nat 10) EmptyString.

Definition usage_no_args (model_key : string) : string :=
  "Please provide a prompt! Examples:" +:+ nl +:+
  "• `/" +:+ model_key +:+ " a beautiful sunset` (portrait)" +:+ nl +:+
  "• `/" +:+ model_key +:+ " --landscape a beautiful sunset` (landscape)" +:+ nl +:+
  "• `/" +:+ model_key +:+ " --square a beautiful sunset` (square)" +:+ nl +:+
  "• `/" +:+ model_key +:+ " -n 3 -s a beautiful sunset` (generate 3 square images)".

Definition usage_no_prompt (model_key : string) : string :=
  "Please provide a prompt after the options!" +:+ nl +:+
  "Example: `/" +:+ model_key +:+ " --landscape -n 2 a beautiful sunset`".

Definition orientation_text_of (orientation : string) : string :=
  if bool_decide (orientation = "landscape") then "🖼️ Landscape"
  else if bool_decide (orientation = "portrait") then "📱 Portrait"
  else "⬛ Square".

Definition num_text_of (num_images : Z) : string :=
  if (num_images >? 1)%Z then pretty num_images +:+ " images" else "1 image".

Definition progress_text (num_text orientation_text name prompt : string) : string :=
  "🎨 Generating " +:+ num_text +:+ " in " +:+ orientation_text +:+ " with " +:+ name +:+
  "..." +:+ nl +:+ "*Prompt:* " +:+ prompt.

Definition caption_of (name orientation_text prompt : string) (i : nat) (num_images : Z)
  : string :=
  let caption :=
    "🎨 Generated with " +:+ name +:+ " (" +:+ orientation_text +:+ ")" +:+ nl +:+
    "*Prompt:* " +:+ prompt in
  if (num_images >? 1)%Z then
    caption +:+ nl +:+ "*Image " +:+ pretty (i + 1)%nat +:+ " of " +:+ pretty num_images +:+ "*"
  else caption.

Definition failure_notice : string := "❌ Failed to generate image. Please try again.".
Definition error_notice : string := "❌ An error occurred while generating the image.".

(** How the [for] loop is left: it ran to its end, or the handler returned
    from inside it. *)
Inductive loop_exit := Completed | Returned.

(** [MODELS[model_key]]: a key that is not registered raises [KeyError]. *)
Definition lookup_model (model_key : string) : exc model :=
  match MODELS !! model_key with
  | Some m => Ret m
  | None => Raise
  end.

Section handler.
#[local] Open Scope handler_scope.
Import Handler.

(** The loop [for i in range(num_images)], over the values of [i] still to
    be visited. *)
Fixpoint generate_loop (w : world) (prompt : string) (m : model)
    (orientation orientation_text : string) (num_images : Z) (range : list nat)
  : M loop_exit :=
  match range with
  | [] => ret Completed
  | i :: range' =>
      do image_base64 <-
        call_client (fun n => generate_image w n prompt (model_id m) orientation None);
      if truthy_opt image_base64 then
        do image_bytes <- lift (b64decode w (default EmptyString image_base64));
        run tg w (ReplyPhoto image_bytes
                    (caption_of (model_name m) orientation_text prompt i num_images));
        generate_loop w prompt m orientation orientation_text num_images range'
      else
        run tg w (EditText failure_notice);
        ret Returned
  end.

Definition generate_image_direct (w : world) (args : list string) (model_key : string)
  : M unit :=
  match args with
  | [] => tg w (ReplyText (usage_no_args model_key))
  | _ :: _ =>
      let '(orientation, num_images, use_max, prompt) := parse_command_args args in
      if negb (Py.truthy_str prompt) then
        tg w (ReplyText (usage_no_prompt model_key))
      else
        do m <- lift (lookup_model model_key);
        let orientation_text := orientation_text_of orientation in
        let num_text := num_text_of num_images in
        run tg w (ReplyText (progress_text num_text orientation_text (model_name m) prompt));
        try_except
          (do r <- generate_loop w prompt m orientation orientation_text num_images
                     (seq 0 (Z.to_nat num_images));
           match r with
           | Completed => tg w DeleteMessage
           | Returned => ret tt
           end)
          (tg w (EditText error_notice))
  end.

End handler.

Definition start_state : ostate := OState [] 0 0.

(** * The specification's reading of the parser *)

(** What a token is to the parser, read from its lower-cased text. *)
Inductive flag := FLandscape | FPortrait | FSquare | FMax | FCount | FWord.

#[global] Instance flag_eq_dec : EqDecision flag.
Proof. solve_decision. Defined.

Definition classify (tok : string) : flag :=
  let arg := Py.lower tok in
  if decide (arg ∈ ["--landscape"; "-l"]) then FLandscape
  else if decide (arg ∈ ["--portrait"; "-p"]) then FPortrait
  else if decide (arg ∈ ["--square"; "-s"]) then FSquare
  else if decide (arg ∈ ["--max"; "-max"]) then FMax
  else if bool_decide (arg = "-n") then FCount
  else FWord.

(** The orientation an orientation flag sets. *)
Definition orientation_of_flag (tok : string) : option string :=
  match classify tok with
  | FLandscape => Some "landscape"
  | FPortrait => Some "portrait"
  | FSquare => Some "square"
  | _ => None
  end.

Definition is_max_flag (tok : string) : bool :=
  match classify tok with FMax => true | _ => false end.

Definition is_count_flag (tok : string) : bool :=
  match classify tok with FCount => true | _ => false end.

(** Last orientation flag wins, scanning from the left and starting from [o]. *)
Definition orient_from (o : string) (toks : list string) : string :=
  fold_left (fun o t => default o (orientation_of_flag t)) toks o.

Definition last_orientation (toks : list string) : string :=
  orient_from "portrait" toks.

Definition max_from (m : bool) (toks : list string) : bool :=
  m || existsb is_max_flag toks.

(** The count after the tokens [toks], starting from [n]: a [-n] followed
    by an integer sets it and takes both tokens, any other token is passed. *)
Fixpoint count_from (n : Z) (toks : list string) : Z :=
  match toks with
  | [] => n
  | t :: rest =>
      if is_count_flag t then
        match rest with
        | a :: rest' =>
            match Py.int a with
            | Some v => count_from (clamp_count v) rest'
            | None => count_from n rest
            end
        | [] => n
        end
      else count_from n rest
  end.

(** The tokens that remain: orientation and max flags are dropped, a [-n]
    is dropped with the integer that follows it, a [-n] with no integer
    after it stays, as does every other token. *)
Fixpoint strip_flags (toks : list string) : list string :=
  match toks with
  | [] => []
  | t :: rest =>
      match classify t with
      | FLandscape | FPortrait | FSquare | FMax => strip_flags rest
      | FCount =>
          match rest with
          | a :: rest' =>
              match Py.int a with
              | Some _ => strip_flags rest'
              | None => t :: strip_flags rest
              end
          | [] => [t]
          end
      | FWord => t :: strip_flags rest
      end
  end.


(** Some [-n] is directly followed by an integer. *)
Fixpoint count_flag_taken (toks : list string) : bool :=
  match toks with
  | [] => false
  | t :: rest =>
      (is_count_flag t &&
       match rest with
       | a :: _ => bool_decide (is_Some (Py.int a))
       | [] => false
       end) || count_flag_taken rest
  end.




(** * The specification's reading of the client *)

(** The result elements of an answer: the answer itself when it is a list,
    the list under ["data"] when it is an object. *)
Definition response_items (result : json) : list json :=
  match result with
  | JList items => items
  | JObj m =>
      match m !! "data" with
      | Some (JList items) => items
      | _ => []
      end
  | _ => []
  end.

(** An element that carries an ["error"] field. *)
Definition has_error_field (item : json) : Prop :=
  ∃ m, item = JObj m ∧ is_Some (m !! "error").

(** An element whose task type is image inference. *)
Definition is_inference_result (item : json) : Prop :=
  ∃ m, item = JObj m ∧ m !! "taskType" = Some (JStr "imageInference").

(** An inference result for the token [tok] with a locator that is true. *)
Definition inference_result_for (tok : string) (item : json) : Prop :=
  ∃ m url, item = JObj m ∧
    m !! "taskType" = Some (JStr "imageInference") ∧
    m !! "taskUUID" = Some (JStr tok) ∧
    m !! "imageURL" = Some url ∧ Json.truthy url = true.


(** The JSON document that [generate_image] posts in its [n]-th call. *)
Definition posted (w : world) (n : nat) (prompt model_id orientation : string)
    (reference_image_base64 : option string) : json :=
  JList (JObj <$> build_payload w (uuid4 w n) prompt model_id orientation
                    reference_image_base64).

Definition is_http_get (e : event) : Prop :=
  match e with HttpGet _ => True | _ => False end.

Definition is_http (e : event) : Prop :=
  match e with HttpPost _ _ | HttpGet _ => True | _ => False end.

(** * The specification's reading of the orchestrator *)

Definition is_photo (e : event) : bool :=
  match e with ReplyPhoto _ _ => true | _ => false end.

Definition is_post (e : event) : bool :=
  match e with HttpPost _ _ => true | _ => false end.

Definition is_edit (e : event) : bool :=
  match e with EditText _ => true | _ => false end.

Definition is_delete (e : event) : bool :=
  match e with DeleteMessage => true | _ => false end.

(** How many events of a trace satisfy [p]. *)
Fixpoint count (p : event → bool) (t : list event) : nat :=
  match t with
  | [] => 0
  | e :: t' => (if p e then 1 else 0) + count p t'
  end.

(** What the [n]-th call of the client returns in the direct path. *)
Definition client_result (w : world) (n : nat) (prompt : string) (m : model)
    (orientation : string) : option string :=
  match (generate_image w n prompt (model_id m) orientation None).1 with
  | Ret r => r
  | Raise => None
  end.

(** Iteration [i] of the loop, counted from 1, gets an image: its call of
    the client, the one numbered [i - 1], returns text that is not empty. *)
Definition iteration_succeeds (w : world) (prompt : string) (m : model)
    (orientation : string) (i : nat) : bool :=
  truthy_opt (client_result w (i - 1) prompt m orientation).

(** The chat transport never raises, and decoding undoes encoding. *)
Definition reliable (w : world) : Prop :=
  (∀ k, tg_raises w k = false) ∧ (∀ c, b64decode w (b64encode w c) = Ret c).

(** The state in which [generate_image_direct] ends, from the start. *)
Definition final_state (w : world) (args : list string) (model_key : string) : ostate :=
  (generate_image_direct w args model_key start_state).2.

(** * Worlds for the examples *)

(** A stand-in for base64 in the examples: a tag before the bytes. *)
Definition tag_encode (content : string) : string := "b64:" +:+ content.

Definition tag_decode (text : string) : exc string :=
  match text with
  | String "b" (String "6" (String "4" (String ":" content))) => Ret content
  | _ => Raise
  end.

(** A world with a reliable chat transport in which the [n]-th client call
    draws the token ["token-n"], gets [answer n] to its POST and the body
    ["img"] with status 200 to every GET. *)
Definition example_world (answer : nat → exc (Z * exc json)) : world :=
  World (Some "secret") (λ n, "token-" +:+ pretty n) (λ n _ _, answer n)
        (λ _ _, Ret (200%Z, "img")) (λ _, false) tag_encode tag_decode.

(** An inference result for the token [tok], as the service returns it. *)
Definition result_for (tok : string) : gmap string json :=
  list_to_map [ ("taskType", JStr "imageInference");
                ("taskUUID", JStr tok);
                ("imageURL", JStr "https://im.example/1.jpg") ].

(** Status 200 with a top-level list holding the result for the call's token. *)
Definition good_answer (n : nat) : exc (Z * exc json) :=
  Ret (200%Z, Ret (JList [JObj (result_for ("token-" +:+ pretty n))])).

(** Status 200 with an object whose ["data"] list holds one element: the
    result for token ["token-0"], which also carries an ["error"] field. *)
Definition data_error_answer : json :=
  JObj {[ "data" := JList [JObj (<["error" := JStr "boom"]> (result_for "token-0"))] ]}.

(** The second client call is answered with status 500, the others as
    [good_answer]. *)
Definition second_fails_answer (n : nat) : exc (Z * exc json) :=
  if (n =? 1)%nat then Ret (500%Z, Raise) else good_answer n.

(** * The editing path: [upload_telegram_image] and [handle_photo_with_caption] *)

Module PyText.

(** [s.strip()]: the blanks at both ends are dropped. *)
Definition strip (s : string) : string := Py.rstrip (Py.lstrip_from 0 s).

End PyText.

(** What the chat platform knows of files: the path [bot.get_file] gives for
    a file id, and the answer to a GET of that path ([Raise]: network error). *)
Record files := Files {
  file_path_of : string → string;
  file_fetch : string → exc (Z * string)
}.

(** The fields of [update.message] that the handler reads: the file ids of
    the photo sizes, smallest first, and the caption. *)
Record message := Message {
  msg_photo : list string;
  msg_caption : option string
}.

Notation "'do' ' p <- m ; k" := (Handler.bind m (fun x => let 'p := x in k))
  (at level 10, p strict pattern, m at level 100, k at level 200, only parsing)
  : handler_scope.

Definition caption_needed : string :=
  "Please provide a caption describing what changes you want to make to the image.".

Definition processing_text (num_text orientation_text name : string) : string :=
  "🔄 Processing your image to generate " +:+ num_text +:+ " for " +:+
  orientation_text +:+ " editing with " +:+ name +:+ "...".

Definition editing_text (name orientation_text prompt num_text : string) : string :=
  "🎨 Editing image with " +:+ name +:+ " (" +:+ orientation_text +:+ ")..." +:+ nl +:+
  "*Changes:* " +:+ prompt +:+ nl +:+ "*Generating " +:+ num_text +:+ "...*".

Definition edit_caption_of (name orientation_text prompt : string) (i : nat)
    (num_images : Z) : string :=
  let caption_text :=
    "✨ Edited with " +:+ name +:+ " (" +:+ orientation_text +:+ ")" +:+ nl +:+
    "**Changes:** " +:+ prompt in
  if (num_images >? 1)%Z then
    caption_text +:+ nl +:+ "*Image " +:+ pretty (i + 1)%nat +:+ " of " +:+
    pretty num_images +:+ "*"
  else caption_text.

Definition reference_failed_notice : string := "❌ Failed to process the reference image.".
Definition edit_failure_notice : string := "❌ Failed to edit image. Please try again.".
Definition edit_error_notice : string := "❌ An error occurred while editing the image.".

Section editing.
#[local] Open Scope handler_scope.
Import Handler.

(** [bot.get_file(file_id)]: a call of the chat transport that returns the
    file, of which the code reads [file_path]. *)
Definition get_file (w : world) (f : files) (file_id : string) : M string :=
  fun s =>
    (if tg_raises w (tg_calls s) then Raise else Ret (file_path_of f file_id),
     OState (trace s) (gen_calls s) (S (tg_calls s))).

(** [session.get(file.file_path)] *)
Definition file_get (f : files) (path : string) : M (Z * string) :=
  fun s =>
    (file_fetch f path,
     OState (trace s ++ [HttpGet path]) (gen_calls s) (tg_calls s)).

(** [ImageBot.upload_telegram_image] *)
Definition upload_telegram_image (w : world) (f : files) (file_id : string)
  : M (option string) :=
  try_except
    (do path <- get_file w f file_id;
     do '(status, content) <- file_get f path;
     if (status =? 200)%Z then ret (Some (b64encode w content))
     else ret None)
    (ret None).

(** The loop [for i in range(num_images)] of the editing path. *)
Fixpoint edit_loop (w : world) (prompt model_key : string) (m : model)
    (orientation orientation_text : string) (num_images : Z)
    (reference_image_base64 : option string) (range : list nat) : M loop_exit :=
  match range with
  | [] => ret Completed
  | i :: range' =>
      do m' <- lift (lookup_model model_key);
      do image_base64 <-
        call_client (fun n => generate_image w n prompt (model_id m') orientation
                                reference_image_base64);
      if truthy_opt image_base64 then
        do image_bytes <- lift (b64decode w (default EmptyString image_base64));
        run tg w (ReplyPhoto image_bytes
                    (edit_caption_of (model_name m) orientation_text prompt i
                       num_images));
        edit_loop w prompt model_key m orientation orientation_text num_images
          reference_image_base64 range'
      else
        run tg w (EditText edit_failure_notice);
        ret Returned
  end.

(** What the handler works with after parsing the caption: the parsed
    values, or the defaults with the whole caption when no prompt is left. *)
Definition caption_request (caption : string) : string * Z * bool * string :=
  let '(orientation, num_images, use_max, prompt) :=
    parse_command_args (Py.split caption) in
  if negb (Py.truthy_str prompt) then ("portrait", 1%Z, false, caption)
  else (orientation, num_images, use_max, prompt).

Definition edit_model_key (use_max : bool) : string :=
  if use_max then "kontext-max" else "kontext".

Definition handle_photo_with_caption (w : world) (f : files) (msg : message)
  : M unit :=
  match msg_photo msg with
  | [] => ret tt
  | _ :: _ =>
      if negb (truthy_opt (msg_caption msg)) then ret tt
      else
        let caption := PyText.strip (default EmptyString (msg_caption msg)) in
        if negb (Py.truthy_str caption) then tg w (ReplyText caption_needed)
        else
          let '(orientation, num_images, use_max, prompt) := caption_request caption in
          let model_key := edit_model_key use_max in
          do m <- lift (lookup_model model_key);
          let orientation_text := orientation_text_of orientation in
          let num_text := num_text_of num_images in
          run tg w (ReplyText (processing_text num_text orientation_text (model_name m)));
          try_except
            (do file_id <- lift (match last (msg_photo msg) with
                                 | Some p => Ret p
                                 | None => Raise
                                 end);
             do reference_image_base64 <- upload_telegram_image w f file_id;
             if negb (truthy_opt reference_image_base64) then
               tg w (EditText reference_failed_notice)
             else
               run tg w (EditText (editing_text (model_name m) orientation_text prompt
                                     num_text));
               do e <- edit_loop w prompt model_key m orientation orientation_text
                         num_images reference_image_base64
                         (seq 0 (Z.to_nat num_images));
               match e with
               | Completed => tg w DeleteMessage
               | Returned => ret tt
               end)
            (tg w (EditText edit_error_notice))
  end.

End editing.

(** A POST of a job whose inference element has the field [k] set to [v]. *)
Definition post_has (k : string) (v : json) (e : event) : Prop :=
  match e with
  | HttpPost _ (JList [_; JObj job]) => job !! k = Some v
  | HttpPost _ _ => False
  | _ => True
  end.

(** A POST of a job whose inference element has no field [k]. *)
Definition post_lacks (k : string) (e : event) : Prop :=
  match e with
  | HttpPost _ (JList [_; JObj job]) => job !! k = None
  | HttpPost _ _ => False
  | _ => True
  end.

(** A world whose chat transport raises exactly at its call numbered [k]. *)
Definition flaky_world (k : nat) : world :=
  World (Some "secret") (λ n, "token-" +:+ pretty n) (λ n _ _, good_answer n)
        (λ _ _, Ret (200%Z, "img")) (λ n, (n =? k)%nat) tag_encode tag_decode.

(** Files of the examples: every id has a path, every path a body. *)
Definition example_files (status : Z) : files :=
  Files (λ id, "https://files.example/" +:+ id) (λ _, Ret (status, "photo")).

(** The texts of the flags, in lower case. *)
Definition flag_texts : list string :=
  ["--landscape"; "-l"; "--portrait"; "-p"; "--square"; "-s"; "--max"; "-max"; "-n"].

(** A result element that is an object without an ["error"] field. *)
Definition plain_object (item : json) : Prop :=
  ∃ m, item = JObj m ∧ m !! "error" = None.

(** A result object that the second loop passes over: its task type is
    not image inference, or its token is not [tok], or it has no locator,
    or its locator is not true (an empty text, null, zero). *)
Definition other_result (tok : string) (item : json) : Prop :=
  ∃ m, item = JObj m ∧
    (m !! "taskType" ≠ Some (JStr "imageInference") ∨
     m !! "taskUUID" ≠ Some (JStr tok) ∨
     m !! "imageURL" = None ∨
     ∃ url, m !! "imageURL" = Some url ∧ Json.truthy url = false).

(** What the download of a locator gives in the [n]-th client call. *)
Definition download_outcome (w : world) (n : nat) (url : json) : option string :=
  match url with
  | JStr u =>
      match fetch w n u with
      | Ret (status, content) =>
          if (status =? 200)%Z then Some (b64encode w content) else None
      | Raise => None
      end
  | _ => None
  end.

(** Status 200 with three results: one for another call, one for the first
    call whose locator is empty, then one for the first call with a locator. *)
Definition three_results_answer (n : nat) : exc (Z * exc json) :=
  Ret (200%Z,
       Ret (JList [ JObj (result_for "token-9");
                    JObj (<["imageURL" := JStr EmptyString]> (result_for "token-0"));
                    JObj (<["imageURL" := JStr "https://im.example/2.jpg"]>
                            (result_for "token-0")) ])).

(** * Statements about every run of a handler *)

(** Run from a state where [P] holds, [m] ends in a state where [Q] holds,
    whether it returns or raises. *)
Definition ensures {A} (P : ostate → Prop) (m : Handler.M A) (Q : ostate → Prop)
  : Prop :=
  ∀ s, P s → Q (m s).2.

(** Every client call made so far posted one job, and no more photos were
    delivered than calls were made. *)
Definition counts_in_step (s : ostate) : Prop :=
  count is_post (trace s) = gen_calls s ∧ count is_photo (trace s) ≤ gen_calls s.

(** Every event of the trace satisfies [Q]. *)
Definition all_events (Q : event → Prop) (s : ostate) : Prop := Forall Q (trace s).

(** A POST of the direct path: the job carries the prompt, the model id and
    the dimensions of the request, and no reference image. *)
Definition direct_job (prompt model_id orientation : string) (e : event) : Prop :=
  post_has "positivePrompt" (JStr prompt) e ∧
  post_has "model" (JStr model_id) e ∧
  post_has "width" (JNum (get_dimensions model_id orientation).1) e ∧
  post_has "height" (JNum (get_dimensions model_id orientation).2) e ∧
  post_lacks "referenceImages" e.

(** What the upload of a chat file gives when the transport answers. *)
Definition upload_outcome (w : world) (f : files) (file_id : string)
  : option string :=
  match file_fetch f (file_path_of f file_id) with
  | Ret (status, content) =>
      if (status =? 200)%Z then Some (b64encode w content) else None
  | Raise => None
  end.

(** A POST of the editing path: the job carries the reference image, the
    model id and the prompt. *)
Definition edit_job (prompt model_id reference : string) (e : event) : Prop :=
  post_has "referenceImages" (JList [JStr reference]) e ∧
  post_has "model" (JStr model_id) e ∧
  post_has "positivePrompt" (JStr prompt) e.

(** * Properties *)

(** ** Python strings *)

Module PyFacts.
Import Py.

Ltac N_cases :=
  repeat match goal with
         | |- context [(?a <=? ?b)%N] => destruct (N.leb_spec a b)
         | |- context [(?a <? ?b)%N] => destruct (N.ltb_spec a b)
         | |- context [(?a =? ?b)%N] => destruct (N.eqb_spec a b)
         end;
  cbn [andb orb negb].

Lemma byte_lower_char c : byte (lower_char c) = lower_code (byte c).
Proof. by destruct c as [[] [] [] [] [] [] [] []]. Qed.

Lemma lower_char_high c : (byte c <? 128)%N = false → lower_char c = c.
Proof. destruct c as [[] [] [] [] [] [] [] []]; by vm_compute. Qed.

Lemma lower_code_cases n :
  ((65 ≤ n ≤ 90)%N ∧ lower_code n = (n + 32)%N) ∨
  (¬ (65 ≤ n ≤ 90)%N ∧ lower_code n = n).
Proof. unfold lower_code. N_cases; lia. Qed.

Lemma lower_code_low n : (n <? 128)%N = true → (lower_code n <? 128)%N = true.
Proof.
  rewrite !N.ltb_lt. destruct (lower_code_cases n) as [[? ->]|[? ->]]; lia.
Qed.

Lemma lower_code_high n : (90 < n)%N → lower_code n = n.
Proof. destruct (lower_code_cases n) as [[? ->]|[? ->]]; [lia|done]. Qed.

Lemma continuation_lower s :
  continuation (lower s) = prod_map id lower <$> continuation s.
Proof.
  destruct s as [|b s]; [done|].
  destruct b as [[] [] [] [] [] [] [] []]; reflexivity.
Qed.

Lemma multibyte_lower lead s : multibyte lead (lower s) = multibyte lead s.
Proof.
  unfold multibyte. rewrite continuation_lower.
  destruct (continuation s) as [[x s2]|]; [|done].
  cbv [fmap option_fmap option_map prod_map id fst snd].
  rewrite continuation_lower. destruct (continuation s2) as [[y s3]|]; [|done].
  cbv [fmap option_fmap option_map prod_map id fst snd].
  rewrite continuation_lower. by destruct (continuation s3) as [[z s4]|].
Qed.

(** A character of several bytes is no ASCII character. *)
Lemma multibyte_code lead s : (127 < (multibyte lead s).1)%N.
Proof.
  unfold multibyte, replacement.
  destruct (continuation s) as [[x s2]|];
    [destruct (continuation s2) as [[y s3]|];
       [destruct (continuation s3) as [[z s4]|]|]|];
    N_cases; cbn [fst]; lia.
Qed.

Lemma head_char_lower a s :
  head_char (lower_char a) (lower s) =
  (lower_code (head_char a s).1, (head_char a s).2).
Proof.
  unfold head_char. destruct (byte a <? 128)%N eqn:Ha.
  - by rewrite byte_lower_char, lower_code_low.
  - rewrite (lower_char_high a Ha), Ha, multibyte_lower.
    pose proof (multibyte_code (byte a) s).
    rewrite lower_code_high by lia. by destruct (multibyte (byte a) s).
Qed.

Lemma codepoints_from_lower s : ∀ k,
  codepoints_from k (lower s) = lower_code <$> codepoints_from k s.
Proof.
  induction s as [|a s IH]; intros [|k]; cbn [lower codepoints_from]; try done.
  rewrite head_char_lower. cbn [fst snd]. by rewrite fmap_cons, IH.
Qed.

Lemma decimal_digit cp d : decimal cp = Some d → (d < 10)%N.
Proof.
  unfold decimal.
  destruct (find _ decimal_zeros) as [zero|] eqn:Hfind; [|done].
  apply find_some in Hfind as [_ Hzero]. intros [= <-].
  apply andb_prop in Hzero as [H1%N.leb_le H2%N.ltb_lt]. lia.
Qed.

Lemma to_ascii_lower cp : to_ascii (lower_code cp) = lower_code (to_ascii cp).
Proof.
  unfold to_ascii. destruct (N.ltb_spec cp 127) as [Hlow|Hhigh].
  - assert ((lower_code cp <? 127)%N = true) as ->; [|done].
    apply N.ltb_lt. destruct (lower_code_cases cp) as [[? ->]|[? ->]]; lia.
  - rewrite (lower_code_high cp) by lia.
    destruct (N.ltb_spec cp 127); [lia|].
    destruct (is_space cp); [done|].
    destruct (decimal cp) as [d|] eqn:Hd; [|done].
    apply decimal_digit in Hd.
    destruct (lower_code_cases (48 + d)) as [[? ->]|[? ->]]; [lia|done].
Qed.

Lemma lower_code_class c :
  is_ascii_space (lower_code c) = is_ascii_space c ∧
  digit_of (lower_code c) = digit_of c ∧
  is_underscore (lower_code c) = is_underscore c ∧
  (lower_code c =? 43)%N = (c =? 43)%N ∧
  (lower_code c =? 45)%N = (c =? 45)%N.
Proof.
  destruct (lower_code_cases c) as [[? ->]|[? ->]]; [|done].
  unfold is_ascii_space, digit_of, is_underscore.
  split_and!; N_cases; first [done|lia|exfalso; lia].
Qed.

Lemma skip_spaces_lower l :
  skip_spaces (lower_code <$> l) = lower_code <$> skip_spaces l.
Proof.
  induction l as [|c l IH]; [done|]. rewrite fmap_cons. cbn [skip_spaces].
  destruct (lower_code_class c) as (-> & _). by destruct (is_ascii_space c).
Qed.

Lemma all_space_lower l :
  forallb is_ascii_space (lower_code <$> l) = forallb is_ascii_space l.
Proof.
  induction l as [|c l IH]; [done|]. rewrite fmap_cons. cbn [forallb].
  destruct (lower_code_class c) as (-> & _). by rewrite IH.
Qed.

Lemma int_digits_lower l : ∀ acc count u,
  int_digits acc count u (lower_code <$> l) = int_digits acc count u l.
Proof.
  induction l as [|c l IH]; intros acc count u; [done|].
  rewrite fmap_cons. cbn [int_digits].
  destruct (lower_code_class c) as (Hs & Hd & Hu & _).
  rewrite Hs, Hd, Hu, all_space_lower.
  destruct (digit_of c); [apply IH|].
  destruct (is_underscore c); [by rewrite IH|done].
Qed.

Lemma int_unsigned_lower l : int_unsigned (lower_code <$> l) = int_unsigned l.
Proof.
  destruct l as [|c l]; [done|]. rewrite fmap_cons. cbn [int_unsigned].
  destruct (lower_code_class c) as (_ & -> & _).
  destruct (digit_of c); [apply int_digits_lower|done].
Qed.

Lemma int_ascii_lower l : int_ascii (lower_code <$> l) = int_ascii l.
Proof.
  unfold int_ascii. rewrite skip_spaces_lower.
  destruct (skip_spaces l) as [|c l']; [done|]. rewrite fmap_cons.
  destruct (lower_code_class c) as (_ & _ & _ & -> & ->).
  rewrite int_unsigned_lower, <- fmap_cons. by rewrite int_unsigned_lower.
Qed.

(** [int] does not look at the case of letters. *)
Lemma int_lower s : int (lower s) = int s.
Proof.
  unfold int, codepoints. rewrite codepoints_from_lower, <- list_fmap_compose.
  rewrite (list_fmap_ext (to_ascii ∘ lower_code) (lower_code ∘ to_ascii)
             (codepoints_from 0 s))
    by (intros i x _; apply to_ascii_lower).
  by rewrite list_fmap_compose, int_ascii_lower.
Qed.




End PyFacts.

(** ** The argument parser *)

Lemma parse_step_classify o n m args i :
  parse_step (PState o n m args i) =
  match args !! i with
  | None => None
  | Some tok =>
      Some match classify tok with
           | FLandscape => PState "landscape" n m (delete i args) i
           | FPortrait => PState "portrait" n m (delete i args) i
           | FSquare => PState "square" n m (delete i args) i
           | FMax => PState o n true (delete i args) i
           | FCount =>
               match args !! (i + 1) ≫= Py.int with
               | Some v => PState o (clamp_count v) m (delete i (delete i args)) i
               | None => PState o n m args (i + 1)
               end
           | FWord => PState o n m args (i + 1)
           end
  end.
Proof.
  unfold parse_step, classify. destruct (args !! i) as [tok|] eqn:Hi; [|done].
  f_equal. repeat (case_decide; [done|]).
  case_bool_decide; cbn [andb]; [|done].
  case_bool_decide as Hlen; [done|].
  rewrite (lookup_ge_None_2 args (i + 1)) by lia. done.
Qed.

(** The literal flags are no integers. *)
Lemma int_flag_None tok : classify tok ≠ FWord → Py.int tok = None.
Proof.
  rewrite <- PyFacts.int_lower. unfold classify.
  repeat (case_decide as H;
          [intros _; set_unfold in H; destruct_or!; by rewrite H|clear H]).
  case_bool_decide as H; [intros _; by rewrite H|done].
Qed.

Lemma int_Some_word tok v : Py.int tok = Some v → classify tok = FWord.
Proof.
  intros Hv. destruct (classify tok) eqn:Hc; try done;
    rewrite int_flag_None in Hv by (by rewrite Hc); done.
Qed.

Lemma lookup_after_kept (kept rest : list string) :
  (kept ++ rest) !! length kept = head rest.
Proof.
  destruct rest as [|t rest]; cbn.
  - apply lookup_ge_None_2. rewrite length_app. cbn. lia.
  - by apply list_lookup_middle.
Qed.

Lemma lookup_after_kept_next (kept : list string) t rest :
  (kept ++ t :: rest) !! (length kept + 1) = head rest.
Proof.
  replace (kept ++ t :: rest) with ((kept ++ [t]) ++ rest) by by rewrite <- app_assoc.
  replace (length kept + 1) with (length (kept ++ [t])) by (rewrite length_app; cbn; lia).
  apply lookup_after_kept.
Qed.

Ltac spec_step Hc :=
  unfold orient_from, max_from;
  cbn [fold_left existsb count_from strip_flags];
  unfold orientation_of_flag, is_max_flag, is_count_flag;
  rewrite ?Hc; cbn [default orb].

(** The loop of the source computes what the specification's functions say:
    from a state whose tokens are [kept ++ rest] with the index after [kept],
    enough fuel ends in the state described by [rest]. *)
Lemma parse_loop_spec fuel : ∀ rest kept o n m,
  length rest ≤ fuel →
  parse_loop fuel (PState o n m (kept ++ rest) (length kept)) =
  PState (orient_from o rest) (count_from n rest) (max_from m rest)
         (kept ++ strip_flags rest) (length (kept ++ strip_flags rest)).
Proof.
  induction fuel as [|fuel IH]; intros rest kept o n m Hlen.
  { destruct rest; [|cbn in Hlen; lia]. cbn.
    unfold max_from. cbn. by rewrite orb_false_r, app_nil_r. }
  cbn [parse_loop]. rewrite parse_step_classify, lookup_after_kept.
  destruct rest as [|t rest]; cbn [head].
  { unfold max_from. cbn. by rewrite orb_false_r, app_nil_r. }
  cbn [length] in Hlen.
  assert (Hkept : ∀ l, kept ++ t :: l = (kept ++ [t]) ++ l)
    by (intros; by rewrite <- app_assoc).
  assert (Hidx : length kept + 1 = length (kept ++ [t]))
    by (rewrite length_app; cbn; lia).
  destruct (classify t) eqn:Hc.
  - rewrite delete_middle, IH by lia. by spec_step Hc.
  - rewrite delete_middle, IH by lia. by spec_step Hc.
  - rewrite delete_middle, IH by lia. by spec_step Hc.
  - rewrite delete_middle, IH by lia. spec_step Hc.
    by rewrite orb_true_r.
  - rewrite lookup_after_kept_next.
    destruct rest as [|a rest]; cbn [head mbind option_bind].
    + rewrite Hkept, Hidx, IH by (cbn; lia). spec_step Hc.
      by rewrite orb_false_r, <- !app_assoc.
    + destruct (Py.int a) as [v|] eqn:Ha.
      * rewrite !delete_middle, IH by (cbn in Hlen; lia).
        pose proof (int_Some_word _ _ Ha) as Hw.
        spec_step Hc. rewrite Ha. by spec_step Hw.
      * rewrite Hkept, Hidx, IH by (cbn in *; lia). spec_step Hc.
        rewrite Ha. by rewrite <- !app_assoc.
  - rewrite Hkept, Hidx, IH by lia. spec_step Hc.
    by rewrite <- !app_assoc.
Qed.

(** The final state of [parse_command_args], by the specification's functions. *)
Lemma parse_final_spec args :
  parse_final args =
  PState (last_orientation args) (count_from 1 args) (max_from false args)
         (strip_flags args) (length (strip_flags args)).
Proof. apply (parse_loop_spec (length args) args []). lia. Qed.

(** The fuel suffices: in the final state the loop condition is false. *)
Lemma parse_final_done args : parse_step (parse_final args) = None.
Proof.
  rewrite parse_final_spec, parse_step_classify.
  by rewrite (lookup_ge_None_2 _ _) by lia.
Qed.

Lemma parse_command_args_spec args :
  parse_command_args args =
  (last_orientation args, count_from 1 args, max_from false args,
   Py.join " " (strip_flags args)).
Proof. unfold parse_command_args. by rewrite parse_final_spec. Qed.

(** *** The specification's functions *)

Lemma list_ind_pairs {A} (P : list A → Prop) :
  P [] → (∀ x, P [x]) → (∀ x y l, P l → P (y :: l) → P (x :: y :: l)) →
  ∀ l, P l.
Proof.
  intros H0 H1 H2 l. enough (P l ∧ ∀ x, P (x :: l)) by tauto.
  induction l as [|y l [IH1 IH2]]; [by split|].
  split; [apply IH2|]. intros x. apply H2; [done|apply IH2].
Qed.

Lemma strip_flags_cons t rest :
  strip_flags (t :: rest) =
  match classify t with
  | FLandscape | FPortrait | FSquare | FMax => strip_flags rest
  | FCount =>
      match rest with
      | a :: rest' =>
          match Py.int a with
          | Some _ => strip_flags rest'
          | None => t :: strip_flags rest
          end
      | [] => [t]
      end
  | FWord => t :: strip_flags rest
  end.
Proof. done. Qed.

Lemma count_from_cons n t rest :
  count_from n (t :: rest) =
  if is_count_flag t then
    match rest with
    | a :: rest' =>
        match Py.int a with
        | Some v => count_from (clamp_count v) rest'
        | None => count_from n rest
        end
    | [] => n
    end
  else count_from n rest.
Proof. done. Qed.




Lemma count_from_app n pre l :
  head l ≫= Py.int = None →
  count_from n (pre ++ l) = count_from (count_from n pre) l.
Proof.
  intros Hl. revert n.
  induction pre as [|x|x y pre IH1 IH2] using list_ind_pairs; intros n; [done| |].
  - cbn [app count_from]. destruct (is_count_flag x) eqn:Hx; [|done].
    destruct l as [|a l]; [done|]. cbn in Hl. rewrite Hl.
    destruct (is_count_flag a); [|done].
    destruct l; [done|]. by destruct (Py.int _).
  - change ((x :: y :: pre) ++ l) with (x :: (y :: pre) ++ l).
    rewrite !(count_from_cons _ x).
    destruct (is_count_flag x); [|apply IH2].
    change ((y :: pre) ++ l) with (y :: (pre ++ l)). cbv beta iota.
    destruct (Py.int y); [apply IH1|apply IH2].
Qed.

Lemma clamp_count_range v : (1 ≤ clamp_count v ≤ 10)%Z.
Proof.
  unfold clamp_count. destruct (Z.ltb_spec v 1); [lia|].
  destruct (Z.gtb_spec v 10); lia.
Qed.

Lemma count_from_range toks : ∀ n,
  (1 ≤ n ≤ 10)%Z → (1 ≤ count_from n toks ≤ 10)%Z.
Proof.
  induction toks as [|x|x y l IH1 IH2] using list_ind_pairs; intros n Hn; [done| |].
  - cbn. by destruct (is_count_flag x).
  - cbn [count_from]. destruct (is_count_flag x); [|by apply IH2].
    destruct (Py.int y); [apply IH1, clamp_count_range|by apply IH2].
Qed.

Lemma count_from_untaken toks n :
  count_flag_taken toks = false → count_from n toks = n.
Proof.
  induction toks as [|x|x y l IH1 IH2] using list_ind_pairs; [done| |].
  - cbn. by destruct (is_count_flag x).
  - cbn [count_flag_taken count_from]. intros [Hx Hr]%orb_false_elim.
    destruct (is_count_flag x); [|by apply IH2].
    cbn in Hx. destruct (Py.int y) as [v|]; [|by apply IH2].
    by rewrite bool_decide_eq_false in Hx; destruct Hx.
Qed.

Lemma strip_flags_untaken toks :
  count_flag_taken toks = false →
  strip_flags toks =
  filter (λ t, classify t = FCount ∨ classify t = FWord) toks.
Proof.
  induction toks as [|x|x y l IH1 IH2] using list_ind_pairs; [done| |].
  - intros _. cbn [strip_flags]. rewrite filter_cons, filter_nil.
    case_decide as Hx; destruct (classify x); naive_solver.
  - cbn [count_flag_taken]. intros [Hx Hr]%orb_false_elim.
    cbn [strip_flags]. rewrite filter_cons. unfold is_count_flag in Hx.
    case_decide as Hcx; destruct (classify x) eqn:Ex;
      try naive_solver; rewrite <- ?IH2; try done.
    cbn in Hx. destruct (Py.int y); [|done].
    by rewrite bool_decide_eq_false in Hx; destruct Hx.
Qed.

Lemma orient_from_valid toks : ∀ o,
  o ∈ ["portrait"; "landscape"; "square"] →
  orient_from o toks ∈ ["portrait"; "landscape"; "square"].
Proof.
  induction toks as [|t toks IH]; intros o Ho; [done|].
  apply IH. unfold orientation_of_flag.
  destruct (classify t); cbn; set_solver.
Qed.

Lemma orient_from_unflagged toks o :
  Forall (λ u, orientation_of_flag u = None) toks → orient_from o toks = o.
Proof.
  induction 1 as [|t toks Ht _ IH]; [done|].
  unfold orient_from in *. cbn. by rewrite Ht.
Qed.

(** The lower-cased text of a token decides its class. *)
Lemma classify_lower t u : Py.lower t = Py.lower u → classify t = classify u.
Proof. unfold classify. by intros ->. Qed.

Lemma orient_from_same_case pre t u post o :
  Py.lower t = Py.lower u →
  orient_from o (pre ++ t :: post) = orient_from o (pre ++ u :: post).
Proof.
  intros Htu. unfold orient_from. rewrite !fold_left_app. cbn.
  unfold orientation_of_flag. by rewrite (classify_lower t u).
Qed.

Ltac flag_text :=
  unfold orientation_of_flag, classify;
  repeat case_decide; try case_bool_decide;
  (split; intros ?; try done; set_unfold; destruct_or?; first [done|congruence|tauto]).

(** The texts of the orientation flags. *)
Lemma orientation_of_flag_landscape t :
  orientation_of_flag t = Some "landscape" ↔ Py.lower t ∈ ["--landscape"; "-l"].
Proof.
  flag_text.
Qed.

Lemma orientation_of_flag_portrait t :
  orientation_of_flag t = Some "portrait" ↔ Py.lower t ∈ ["--portrait"; "-p"].
Proof.
  flag_text.
Qed.

Lemma orientation_of_flag_square t :
  orientation_of_flag t = Some "square" ↔ Py.lower t ∈ ["--square"; "-s"].
Proof.
  flag_text.
Qed.


Lemma parsed_count_spec args :
  parsed_count (parse_command_args args) = count_from 1 args.
Proof. by rewrite parse_command_args_spec. Qed.

Lemma parsed_orientation_spec args :
  parsed_orientation (parse_command_args args) = last_orientation args.
Proof. by rewrite parse_command_args_spec. Qed.

(** *** The claims on the parser *)



(** C4.  For every token sequence the count returned by the parser lies in
    [1,10]; [-n 0] gives 1, [-n 15] gives 10, and [-n abc] leaves the
    default 1: the failed conversion is caught, and the parser returns. *)
Theorem C4_count_clamped (args : list string) :
  (1 ≤ parsed_count (parse_command_args args) ≤ 10)%Z ∧
  parse_command_args ["-n"; "0"] = ("portrait", 1%Z, false, EmptyString) ∧
  parse_command_args ["-n"; "15"] = ("portrait", 10%Z, false, EmptyString) ∧
  parse_command_args ["-n"; "abc"] = ("portrait", 1%Z, false, "-n abc") ∧
  (∀ a v, Py.int a = Some v →
     parsed_count (parse_command_args ["-n"; a]) = (1 `max` (10 `min` v))%Z) ∧
  (∀ a, Py.int a = None → parsed_count (parse_command_args ["-n"; a]) = 1%Z).
Proof.
  split; [|split_and!].
  - rewrite parsed_count_spec. by apply count_from_range.
  - by vm_compute.
  - by vm_compute.
  - by vm_compute.
  - intros a v Ha. rewrite parsed_count_spec, count_from_cons.
    change (is_count_flag "-n") with true. cbv iota. rewrite Ha.
    cbn [count_from]. unfold clamp_count. destruct (Z.ltb_spec v 1); [lia|].
    destruct (Z.gtb_spec v 10); lia.
  - intros a Ha. rewrite parsed_count_spec, count_from_cons.
    change (is_count_flag "-n") with true. cbv iota. rewrite Ha.
    rewrite count_from_cons. by destruct (is_count_flag a).
Qed.

Lemma C4_count_clamped_witness :
  parsed_count (parse_command_args ["-n"; "-7"]) = 1%Z ∧
  parsed_count (parse_command_args ["-n"; "1_000"]) = 10%Z ∧
  parsed_count (parse_command_args ["-n"; "4"]) = 4%Z ∧
  parsed_count (parse_command_args ["-n"; "٣"]) = 3%Z ∧
  parsed_count (parse_command_args ["-n"; "four"]) = 1%Z.
Proof.
  pose proof (C4_count_clamped []) as (_ & _ & _ & _ & Hint & Hnone).
  split_and!.
  - apply (Hint "-7" (-7)%Z). reflexivity.
  - apply (Hint "1_000" 1000%Z). reflexivity.
  - apply (Hint "4" 4%Z). reflexivity.
  - apply (Hint "٣" 3%Z). reflexivity.
  - apply Hnone. reflexivity.
Defined.

(** C5.  The orientation returned by the parser is the one of the last
    orientation flag of the token sequence, flags being recognized whatever
    the case of their letters; it is portrait when there is no orientation
    flag, [--landscape --portrait] gives portrait, and the orientation is
    always one of portrait, landscape and square. *)
Theorem C5_orientation_last_wins (args : list string) :
  let o := parsed_orientation (parse_command_args args) in
  o ∈ ["portrait"; "landscape"; "square"] ∧
  o = last_orientation args ∧
  (∀ pre t post o', args = pre ++ t :: post →
     orientation_of_flag t = Some o' →
     Forall (λ u, orientation_of_flag u = None) post → o = o') ∧
  (Forall (λ u, orientation_of_flag u = None) args → o = "portrait") ∧
  (∀ pre t u post, args = pre ++ t :: post → Py.lower t = Py.lower u →
     parsed_orientation (parse_command_args (pre ++ u :: post)) = o) ∧
  parsed_orientation (parse_command_args ["--landscape"; "--portrait"]) = "portrait" ∧
  parsed_orientation (parse_command_args ["--PORTRAIT"; "-L"]) = "landscape".
Proof.
  cbv zeta. rewrite !parsed_orientation_spec. split_and!.
  - by apply orient_from_valid; set_solver.
  - done.
  - intros pre t post o' -> Ht Hpost. unfold last_orientation, orient_from.
    rewrite fold_left_app. cbn. rewrite Ht. cbn.
    by apply orient_from_unflagged.
  - by apply orient_from_unflagged.
  - intros pre t u post -> Htu. rewrite parsed_orientation_spec.
    symmetry. by apply orient_from_same_case.
  - by vm_compute.
  - by vm_compute.
Qed.

Lemma C5_orientation_last_wins_witness :
  parsed_orientation
    (parse_command_args ["-s"; "a"; "--Landscape"; "fox"; "-n"; "2"]) = "landscape" ∧
  parsed_orientation (parse_command_args ["a"; "fox"; "-n"; "2"]) = "portrait".
Proof.
  split.
  - pose proof (C5_orientation_last_wins ["-s"; "a"; "--Landscape"; "fox"; "-n"; "2"])
      as (_ & _ & Hlast & _).
    apply (Hlast ["-s"; "a"] "--Landscape" ["fox"; "-n"; "2"]).
    + reflexivity.
    + reflexivity.
    + repeat constructor.
  - pose proof (C5_orientation_last_wins ["a"; "fox"; "-n"; "2"])
      as (_ & _ & _ & Hnone & _).
    apply Hnone. repeat constructor.
Defined.

(** *** Splitting the prompt again *)









(** On tokens without flags the specification's functions do nothing. *)
Lemma unflagged_fixed toks :
  Forall (λ t, classify t = FWord) toks →
  strip_flags toks = toks ∧ count_flag_taken toks = false.
Proof.
  induction 1 as [|t toks Ht _ [IH1 IH2]]; [done|].
  rewrite strip_flags_cons, Ht, IH1. cbn [count_flag_taken].
  unfold is_count_flag. by rewrite Ht, IH2.
Qed.





(** ** The dimension resolver and the registry *)





(** ** The generation client *)

Section client_facts.
Import Client.
Context (w : world) (n : nat).

Lemma download_events url :
  Forall is_http_get (download_image_as_base64 w n url).2.
Proof.
  unfold download_image_as_base64, http_get, try_except, bind, emit, lift, raise, ret.
  destruct url; cbn; try by constructor.
  destruct (fetch w n s) as [[status content]|]; cbn;
    [destruct (status =? 200)%Z|]; cbn; by repeat constructor.
Qed.

Lemma download_returns url : ∃ r, (download_image_as_base64 w n url).1 = Ret r.
Proof.
  unfold download_image_as_base64, http_get, try_except, bind, emit, lift, raise, ret.
  destruct url; cbn; eauto.
  destruct (fetch w n s) as [[status content]|]; cbn;
    [destruct (status =? 200)%Z|]; cbn; eauto.
Qed.

(** A download gives text only for a locator that is a string and whose
    GET is answered with status 200: the text encodes the body. *)
Lemma download_Some url b :
  (download_image_as_base64 w n url).1 = Ret (Some b) →
  ∃ u content, url = JStr u ∧ fetch w n u = Ret (200%Z, content) ∧
               b = b64encode w content.
Proof.
  unfold download_image_as_base64, http_get, try_except, bind, emit, lift, raise, ret.
  destruct url as [| | | |u| |]; cbn; try done.
  destruct (fetch w n u) as [[status content]|] eqn:Hf; cbn; [|done].
  destruct (Z.eqb_spec status 200) as [->|]; cbn; [|done].
  intros [= <-]. eauto.
Qed.

Lemma item_matches_true tok item :
  item_matches tok item = Ret true →
  ∃ m, item = JObj m ∧
    m !! "taskType" = Some (JStr "imageInference") ∧
    m !! "taskUUID" = Some (JStr tok) ∧ is_Some (m !! "imageURL").
Proof.
  unfold item_matches, Json.get, Json.get_default. intros H.
  destruct item as [| | | | | |m]; try done. exists m.
  destruct (m !! "taskType") as [[| | | |ty| |]|]; try done. cbn in H.
  case_bool_decide as Hty; [subst ty|done]. cbn in H.
  destruct (m !! "taskUUID") as [[| | | |u| |]|]; try done. cbn in H.
  case_bool_decide as Hu; [subst u|done]. cbn in H.
  injection H as Hurl%bool_decide_eq_true. done.
Qed.

Lemma find_image_events tok items :
  Forall is_http_get (find_image w n tok items).2.
Proof.
  induction items as [|item items IH]; [by constructor|].
  cbn [find_image]. unfold bind, lift.
  destruct (item_matches tok item) as [[]|]; cbn; try done.
  destruct (Json.get item "imageURL") as [url|]; cbn; [|by constructor].
  destruct (Json.truthy url).
  - destruct (download_image_as_base64 w n url) as [r t] eqn:Hd.
    pose proof (download_events url) as Hev. rewrite Hd in Hev. done.
  - destruct (find_image w n tok items). done.
  - destruct (find_image w n tok items). done.
Qed.

(** The second loop gives text only when an element matches the token and
    has a true locator, whose download gave the text. *)
Lemma find_image_Some tok items b :
  (find_image w n tok items).1 = Ret (Some b) →
  ∃ item, item ∈ items ∧ inference_result_for tok item.
Proof.
  induction items as [|item items IH]; [done|].
  cbn [find_image]. unfold bind, lift.
  destruct (item_matches tok item) as [[]|] eqn:Hm; cbn; try done.
  - destruct (Json.get item "imageURL") as [url|] eqn:Hu; cbn; [|done].
    destruct (Json.truthy url) eqn:Ht.
    + intros _. exists item. split; [by left|].
      apply item_matches_true in Hm as (m & -> & Hty & Huuid & Hurl).
      exists m, url. split_and!; try done.
      unfold Json.get, Json.get_default in Hu. destruct Hurl as [v Hv].
      rewrite Hv in Hu |- *. cbn in Hu. congruence.
    + destruct (find_image w n tok items) as [r t]. cbn in *.
      intros Hr. destruct (IH Hr) as (it & Hit & Hfor).
      exists it. split; [by right|done].
  - destruct (find_image w n tok items) as [r t]. cbn in *.
    intros Hr. destruct (IH Hr) as (it & Hit & Hfor).
    exists it. split; [by right|done].
Qed.

(** The objects the second loop visits are result elements of the answer. *)
Lemma items_to_check_objects result items m :
  items_to_check result = Ret items → JObj m ∈ items →
  JObj m ∈ response_items result.
Proof.
  unfold items_to_check, response_items, Json.get_default, Json.iter.
  destruct result as [| | | | |l|o]; try done.
  - by intros [= ->].
  - destruct (o !! "data") as [[| | | |s|l|o']|]; cbn; try done.
    + intros [= <-]. induction s as [|c s IH]; cbn; [by intros ?%elem_of_nil|].
      intros [?|?]%elem_of_cons; [done|auto].
    + by intros [= ->].
    + intros [= <-]. intros (x & ? & _)%list_elem_of_fmap. done.
    + intros [= <-]. by intros ?%elem_of_nil.
Qed.

End client_facts.

Section generate_image_facts.
Import Client.
Context (w : world) (n : nat) (prompt model_id orientation : string)
        (reference : option string).

Ltac client_step :=
  cbv beta iota zeta delta
    [generate_image try_except bind http_post emit lift ret];
  cbn [fst snd app negb].

Ltac client_cases :=
  client_step;
  fold (posted w n prompt model_id orientation reference);
  destruct (post w n api_url (posted w n prompt model_id orientation reference))
    as [[status [result|]]|] eqn:Hpost; client_step;
  [destruct (Z.eqb_spec status 200) as [->|Hstatus]; client_step;
   [destruct (has_error result) as [[]|] eqn:Herr; client_step;
    [| destruct (items_to_check result) as [items|] eqn:Hitems; client_step;
       [destruct (find_image w n (uuid4 w n) items) as [[r|] t] eqn:Hfind;
        client_step| ] | ] | ]
  | destruct (status =? 200)%Z; client_step | ].

(** [generate_image] catches every exception: it returns. *)
Lemma generate_image_returns :
  ∃ r, (generate_image w n prompt model_id orientation reference).1 = Ret r.
Proof. client_cases; eauto. Qed.

(** One call posts the payload once, and then only makes GET requests. *)
Lemma generate_image_events :
  ∃ rest,
    (generate_image w n prompt model_id orientation reference).2 =
    HttpPost api_url (posted w n prompt model_id orientation reference) :: rest ∧
    Forall is_http_get rest.
Proof.
  client_cases; try (eexists; split; [reflexivity|by constructor]).
  all: pose proof (find_image_events w n (uuid4 w n) items) as Hev;
    rewrite Hfind in Hev; rewrite ?app_nil_r; eauto.
Qed.

(** Text is returned only along one path: status 200, a JSON body with no
    error found, and a second loop that gives the text. *)
Lemma generate_image_Some b :
  (generate_image w n prompt model_id orientation reference).1 = Ret (Some b) →
  ∃ result items,
    post w n api_url (posted w n prompt model_id orientation reference) =
      Ret (200%Z, Ret result) ∧
    has_error result = Ret false ∧
    items_to_check result = Ret items ∧
    (find_image w n (uuid4 w n) items).1 = Ret (Some b).
Proof.
  client_cases; try done. intros [= ->].
  exists result, items. by rewrite Hfind.
Qed.

End generate_image_facts.

Lemma any_error_Exists items :
  Exists has_error_field items → any_error items ≠ Ret false.
Proof.
  induction items as [|item items IH]; intros Hex; [by inversion Hex|].
  cbn [any_error]. destruct (Json.contains "error" item) as [[]|] eqn:Hc; try done.
  apply IH. inversion Hex as [? ? (m & -> & Hm)|]; subst; [|done].
  cbn in Hc. by rewrite bool_decide_eq_true_2 in Hc.
Qed.

(** The part of C1 that holds: with status 200, an ["error"] key of a
    top-level object, or of an element of a top-level list, gives [None]. *)
Lemma error_field_rejected w n prompt model_id orientation reference result :
  post w n api_url (posted w n prompt model_id orientation reference) =
    Ret (200%Z, Ret result) →
  has_error_field result ∨
    (∃ items, result = JList items ∧ Exists has_error_field items) →
  (generate_image w n prompt model_id orientation reference).1 = Ret None.
Proof.
  intros Hpost Herr.
  destruct (generate_image_returns w n prompt model_id orientation reference)
    as [[b|] Hr]; [exfalso|done].
  apply generate_image_Some in Hr as (result' & items & Hpost' & Hno & _).
  rewrite Hpost in Hpost'. injection Hpost' as <-.
  destruct Herr as [(m & -> & Hm)|(l & -> & Hex)].
  - cbn in Hno. by rewrite bool_decide_eq_true_2 in Hno.
  - by apply any_error_Exists in Hex.
Qed.

(** C1, at the failing input.  The answer has status 200 and is an object
    whose ["data"] list holds an element with an ["error"] field; the
    check for errors looks at the keys of the object only, the element
    matches the token and has a locator, and [generate_image] returns the
    downloaded image instead of [None]. *)
Theorem C1_error_in_data_not_rejected :
  Exists has_error_field (response_items data_error_answer) ∧
  has_error data_error_answer = Ret false ∧
  (generate_image (example_world (λ _, Ret (200%Z, Ret data_error_answer)))
     0 "a red fox" "runware:101@1" "portrait" None).1 = Ret (Some "b64:img").
Proof.
  split_and!.
  - apply Exists_cons_hd. eexists. split; [reflexivity|].
    by rewrite lookup_insert_eq.
  - by vm_compute.
  - by vm_compute.
Qed.

(** C8.  [generate_image] returns an image only when the answer has status
    200 and holds a result element whose task type is ["imageInference"],
    whose token is the one drawn for this call and posted with the job, and
    whose locator is true; an answer with status 200 in which no inference
    result carries that token gives [None]. *)
Theorem C8_success_needs_matching_result
    (w : world) (n : nat) (prompt model_id orientation : string)
    (reference : option string) :
  build_payload w (uuid4 w n) prompt model_id orientation reference !! 1
    ≫= (λ e, e !! "taskUUID") = Some (JStr (uuid4 w n)) ∧
  (∀ b,
     (generate_image w n prompt model_id orientation reference).1 = Ret (Some b) →
     ∃ result item,
       post w n api_url (posted w n prompt model_id orientation reference) =
         Ret (200%Z, Ret result) ∧
       item ∈ response_items result ∧
       inference_result_for (uuid4 w n) item) ∧
  (∀ result,
     post w n api_url (posted w n prompt model_id orientation reference) =
       Ret (200%Z, Ret result) →
     (∀ m, JObj m ∈ response_items result →
        m !! "taskType" = Some (JStr "imageInference") →
        m !! "taskUUID" ≠ Some (JStr (uuid4 w n))) →
     (generate_image w n prompt model_id orientation reference).1 = Ret None).
Proof.
  assert (Hsome : ∀ b,
     (generate_image w n prompt model_id orientation reference).1 = Ret (Some b) →
     ∃ result item,
       post w n api_url (posted w n prompt model_id orientation reference) =
         Ret (200%Z, Ret result) ∧
       item ∈ response_items result ∧
       inference_result_for (uuid4 w n) item).
  { intros b (result & items & Hpost & _ & Hitems & Hfind)%generate_image_Some.
    apply find_image_Some in Hfind as (item & Hin & Hfor).
    exists result, item. split_and!; try done.
    destruct Hfor as (m & url & -> & _).
    by eapply items_to_check_objects. }
  split_and!; [|done|].
  - unfold build_payload. destruct (get_dimensions model_id orientation).
    by destruct (truthy_opt reference && Py.contains "bfl" model_id).
  - intros result Hpost Hother.
    destruct (generate_image_returns w n prompt model_id orientation reference)
      as [[b|] Hr]; [exfalso|done].
    apply Hsome in Hr as (result' & item & Hpost' & Hin & Hfor).
    rewrite Hpost in Hpost'. injection Hpost' as <-.
    destruct Hfor as (m & url & -> & Hty & Htok & _).
    by apply (Hother m).
Qed.

Lemma C8_success_needs_matching_result_witness :
  (∃ result item,
     post (example_world good_answer) 3 api_url
       (posted (example_world good_answer) 3 "a red fox" "bfl:3@1" "square" None) =
       Ret (200%Z, Ret result) ∧
     item ∈ response_items result ∧ inference_result_for "token-3" item) ∧
  (generate_image (example_world (λ _, good_answer 7)) 3
     "a red fox" "bfl:3@1" "square" None).1 = Ret None.
Proof.
  split.
  - apply (C8_success_needs_matching_result (example_world good_answer) 3
             "a red fox" "bfl:3@1" "square" None) with (b := "b64:img").
    by vm_compute.
  - apply (C8_success_needs_matching_result (example_world (λ _, good_answer 7)) 3
             "a red fox" "bfl:3@1" "square" None)
      with (result := JList [JObj (result_for "token-7")]); [reflexivity|].
    intros m [Hm|Hm%elem_of_nil]%elem_of_cons; [|done].
    injection Hm as ->. intros _. by vm_compute.
Defined.






(** ** The orchestrator *)

Lemma count_app p t1 t2 : count p (t1 ++ t2) = count p t1 + count p t2.
Proof. induction t1 as [|e t1 IH]; [done|]. cbn. rewrite IH. lia. Qed.

Lemma count_http_get p t :
  (∀ u, p (HttpGet u) = false) → Forall is_http_get t → count p t = 0.
Proof.
  intros Hp. induction 1 as [|e t He _ IH]; [done|].
  destruct e; try done. cbn. by rewrite Hp, IH.
Qed.

Section client_in_loop.
Context (w : world) (prompt : string) (m : model) (orientation : string).

(** The events of the [n]-th client call: one POST, no other event that
    the counts below look at. *)
Lemma client_events_count n p :
  (∀ u, p (HttpGet u) = false) →
  count p (generate_image w n prompt (model_id m) orientation None).2 =
  if p (HttpPost api_url (posted w n prompt (model_id m) orientation None))
  then 1 else 0.
Proof.
  intros Hp.
  destruct (generate_image_events w n prompt (model_id m) orientation None)
    as (rest & -> & Hrest).
  cbn. rewrite (count_http_get p rest) by done. lia.
Qed.

Lemma find_image_encoded n tok items b :
  (find_image w n tok items).1 = Ret (Some b) →
  ∃ content, b = b64encode w content.
Proof.
  induction items as [|item items IH]; [done|].
  cbn [find_image]. unfold Client.bind, Client.lift.
  destruct (item_matches tok item) as [[]|]; cbn [fst snd]; try done.
  - destruct (Json.get item "imageURL") as [url|]; cbn [fst snd]; [|done].
    destruct (Json.truthy url).
    + destruct (download_image_as_base64 w n url) as [r t] eqn:Hd.
      cbn [fst]. intros ->.
      pose proof (download_Some w n url b) as Hs. rewrite Hd in Hs.
      destruct (Hs eq_refl) as (u & content & _ & _ & ->). eauto.
    + destruct (find_image w n tok items) as [r t]. exact IH.
  - destruct (find_image w n tok items) as [r t]. exact IH.
Qed.

(** Text returned by the client is the encoding of a downloaded body. *)
Lemma client_result_encoded n b :
  client_result w n prompt m orientation = Some b →
  ∃ content, b = b64encode w content.
Proof.
  unfold client_result.
  destruct (generate_image w n prompt (model_id m) orientation None).1
    as [r|] eqn:Hr; [|done].
  intros ->.
  apply generate_image_Some in Hr as (result & items & _ & _ & _ & Hfind).
  by eapply find_image_encoded.
Qed.

(** A call of the client from the loop: it returns [client_result], adds
    its requests to the trace and is counted. *)
Lemma call_client_generate s :
  Handler.call_client
    (λ n, generate_image w n prompt (model_id m) orientation None) s =
  (Ret (client_result w (gen_calls s) prompt m orientation),
   OState (trace s ++ (generate_image w (gen_calls s) prompt (model_id m)
                         orientation None).2)
          (S (gen_calls s)) (tg_calls s)).
Proof.
  unfold Handler.call_client, client_result.
  destruct (generate_image_returns w (gen_calls s) prompt (model_id m)
              orientation None) as [r Hr].
  destruct (generate_image w (gen_calls s) prompt (model_id m) orientation None)
    as [e t]. cbn in *. by subst e.
Qed.

End client_in_loop.

Section loop.
Context (w : world) (prompt : string) (m : model)
        (orientation orientation_text : string) (num_images : Z).
Hypothesis Hreliable : reliable w.

Let client_events (n : nat) : list event :=
  (generate_image w n prompt (model_id m) orientation None).2.

Let got_image (n : nat) : bool :=
  truthy_opt (client_result w n prompt m orientation).

Lemma tg_reliable e s :
  Handler.tg w e s =
  (Ret tt, OState (trace s ++ [e]) (gen_calls s) (S (tg_calls s))).
Proof. unfold Handler.tg. destruct Hreliable as [Htg _]. by rewrite Htg. Qed.

(** An iteration whose client call gives an image delivers it and goes on. *)
Lemma loop_step_success i range s :
  got_image (gen_calls s) = true →
  ∃ photo,
    generate_loop w prompt m orientation orientation_text num_images (i :: range) s =
    generate_loop w prompt m orientation orientation_text num_images range
      (OState (trace s ++ client_events (gen_calls s) ++
                 [ReplyPhoto photo
                    (caption_of (model_name m) orientation_text prompt i num_images)])
              (S (gen_calls s)) (S (tg_calls s))).
Proof.
  unfold got_image, client_events. intros Hok.
  destruct (client_result w (gen_calls s) prompt m orientation) as [b|] eqn:Hb;
    [|done].
  destruct (client_result_encoded _ _ _ _ _ _ Hb) as [content ->].
  exists content. cbn [generate_loop]. unfold Handler.bind at 1.
  rewrite call_client_generate, Hb, Hok. cbn [default].
  unfold Handler.bind at 1, Handler.lift.
  destruct Hreliable as [_ Hcodec]. unfold id. rewrite Hcodec.
  unfold Handler.bind at 1. rewrite tg_reliable. cbn [trace gen_calls tg_calls].
  by rewrite <- app_assoc.
Qed.

(** An iteration whose client call gives no image edits the progress
    message and returns: the rest of the range is not visited. *)
Lemma loop_step_failure i range s :
  got_image (gen_calls s) = false →
  generate_loop w prompt m orientation orientation_text num_images (i :: range) s =
  (Ret Returned,
   OState (trace s ++ client_events (gen_calls s) ++ [EditText failure_notice])
          (S (gen_calls s)) (S (tg_calls s))).
Proof.
  unfold got_image, client_events. intros Hok.
  cbn [generate_loop]. unfold Handler.bind at 1.
  rewrite call_client_generate, Hok.
  unfold Handler.bind at 1. rewrite tg_reliable. cbn [trace gen_calls tg_calls].
  by rewrite <- app_assoc.
Qed.

Lemma client_events_posts n : count is_post (client_events n) = 1.
Proof. unfold client_events. by rewrite client_events_count. Qed.

Lemma client_events_other n p :
  (∀ u, p (HttpGet u) = false) → (∀ u pl, p (HttpPost u pl) = false) →
  count p (client_events n) = 0.
Proof.
  intros Hget Hpost. unfold client_events.
  by rewrite client_events_count, Hpost.
Qed.

(** The loop when every client call gives an image: it runs to its end,
    with one call, one POST and one photo for every value of the range. *)
Lemma loop_all_succeed len : ∀ a s,
  gen_calls s = a →
  (∀ n, a ≤ n < a + len → got_image n = true) →
  ∃ ext,
    generate_loop w prompt m orientation orientation_text num_images (seq a len) s =
    (Ret Completed, OState (trace s ++ ext) (a + len) (tg_calls s + len)) ∧
    count is_photo ext = len ∧ count is_post ext = len ∧
    count is_edit ext = 0 ∧ count is_delete ext = 0.
Proof.
  induction len as [|len IH]; intros a s Ha Hok.
  { exists []. rewrite app_nil_r, !Nat.add_0_r. subst a. by destruct s. }
  cbn [seq].
  destruct (loop_step_success a (seq (S a) len) s) as [photo ->];
    [rewrite Ha; apply Hok; lia|].
  edestruct (IH (S a)) as (ext & -> & Hph & Hpo & Hed & Hde);
    [cbn; by rewrite Ha | intros n Hn; apply Hok; lia |].
  cbn [trace tg_calls]. eexists. split.
  { rewrite <- !app_assoc. do 2 f_equal; lia. }
  rewrite !count_app, Hph, Hpo, Hed, Hde, client_events_posts.
  rewrite !client_events_other by done. cbn. split_and!; lia.
Qed.

(** The loop when the client call numbered [k] is the first that gives no
    image: the calls before it deliver their photos, the call [k] is made,
    the progress message is edited, and no later call is made. *)
Lemma loop_first_failure len : ∀ a s k,
  gen_calls s = a → a ≤ k < a + len →
  (∀ n, a ≤ n < k → got_image n = true) → got_image k = false →
  ∃ ext tgc,
    generate_loop w prompt m orientation orientation_text num_images (seq a len) s =
    (Ret Returned,
     OState (trace s ++ ext ++ [EditText failure_notice]) (S k) tgc) ∧
    count is_photo ext = k - a ∧ count is_post ext = S (k - a) ∧
    count is_edit ext = 0 ∧ count is_delete ext = 0.
Proof.
  induction len as [|len IH]; intros a s k Ha Hk Hok Hfail; [lia|].
  cbn [seq]. destruct (decide (k = a)) as [->|Hne].
  - rewrite loop_step_failure by by rewrite Ha.
    rewrite Ha. exists (client_events a), (S (tg_calls s)).
    split; [reflexivity|]. 
    rewrite client_events_posts.
    rewrite (client_events_other a is_photo) by done.
    rewrite (client_events_other a is_edit) by done.
    rewrite (client_events_other a is_delete) by done.
    split_and!; lia.
  - destruct (loop_step_success a (seq (S a) len) s) as [photo Hstep];
      [rewrite Ha; apply Hok; lia|].
    rewrite Hstep. 
    edestruct (IH (S a)) with (k := k) as (ext & tgc & Hrun & Hph & Hpo & Hed & Hde);
      [ | | | exact Hfail | ].
    4: { rewrite Hrun. cbn [trace].
         exists (client_events a ++
                 [ReplyPhoto photo
                    (caption_of (model_name m) orientation_text prompt a num_images)]
                 ++ ext), tgc.
         split.
         { by rewrite <- !app_assoc, Ha. }
         rewrite !count_app, Hph, Hpo, Hed, Hde, client_events_posts.
         rewrite (client_events_other _ is_photo) by done.
         rewrite (client_events_other _ is_edit) by done.
         rewrite (client_events_other _ is_delete) by done.
         cbn. split_and!; lia. }
    + cbn. by rewrite Ha.
    + lia.
    + intros n Hn. apply Hok. lia.
Qed.

End loop.

Section direct.
Context (w : world) (args : list string) (model_key : string) (m : model).
Hypothesis Hreliable : reliable w.
Hypothesis Hargs : args ≠ [].
Hypothesis Hprompt : parsed_prompt (parse_command_args args) ≠ EmptyString.
Hypothesis Hmodel : MODELS !! model_key = Some m.

Let r := parse_command_args args.
Let N := Z.to_nat (parsed_count r).
Let progress :=
  ReplyText (progress_text (num_text_of (parsed_count r))
               (orientation_text_of (parsed_orientation r)) (model_name m)
               (parsed_prompt r)).
Let loop :=
  generate_loop w (parsed_prompt r) m (parsed_orientation r)
    (orientation_text_of (parsed_orientation r)) (parsed_count r) (seq 0 N).

(** After the two checks and the progress message, the handler runs the
    loop inside its [try]. *)
Lemma generate_image_direct_run :
  generate_image_direct w args model_key start_state =
  Handler.try_except
    (Handler.bind loop
       (λ e, match e with
             | Completed => Handler.tg w DeleteMessage
             | Returned => Handler.ret tt
             end))
    (Handler.tg w (EditText error_notice))
    (OState [progress] 0 1).
Proof.
  unfold loop, progress, N, r, generate_image_direct in *.
  destruct args as [|a0 rest]; [done|].
  destruct (parse_command_args (a0 :: rest)) as [[[o cnt] mx] p].
  unfold parsed_prompt, parsed_count, parsed_orientation in *. cbn [fst snd] in *.
  destruct p as [|c p]; [done|]. cbn [Py.truthy_str negb].
  unfold lookup_model. rewrite Hmodel.
  unfold Handler.bind at 1, Handler.lift.
  unfold Handler.bind at 1. rewrite tg_reliable by done. done.
Qed.

End direct.

Lemma count_last p (t : list event) e : count p (t ++ [e]) = count p t + (if p e then 1 else 0).
Proof. rewrite count_app. cbn. lia. Qed.

(** C2.  With a reliable chat transport, a command with a prompt and a
    registered model, and [N] the requested count: if the client gives no
    image at iteration [k] (it returns [None], or empty text, which the loop
    treats alike) after giving one at every iteration before, then exactly
    [k - 1] photos were delivered, the client was called [k] times and no
    more, the last thing done is the edit of the progress message to the
    failure notice, and the message is not deleted; if the client gives an
    image at all [N] iterations, [N] photos are delivered with [N] calls,
    and the last thing done is the deletion of the progress message, which
    is never edited. *)
Theorem C2_generation_loop
    (w : world) (args : list string) (model_key : string) (m : model) :
  reliable w →
  args ≠ [] →
  parsed_prompt (parse_command_args args) ≠ EmptyString →
  MODELS !! model_key = Some m →
  let N := Z.to_nat (parsed_count (parse_command_args args)) in
  let succeeds :=
    iteration_succeeds w (parsed_prompt (parse_command_args args)) m
      (parsed_orientation (parse_command_args args)) in
  let final := final_state w args model_key in
  (∀ k, 1 ≤ k ≤ N →
     (∀ j, 1 ≤ j < k → succeeds j = true) → succeeds k = false →
     count is_photo (trace final) = k - 1 ∧
     gen_calls final = k ∧
     count is_post (trace final) = k ∧
     last (trace final) = Some (EditText failure_notice) ∧
     count is_edit (trace final) = 1 ∧
     count is_delete (trace final) = 0) ∧
  ((∀ j, 1 ≤ j ≤ N → succeeds j = true) →
     count is_photo (trace final) = N ∧
     gen_calls final = N ∧
     count is_post (trace final) = N ∧
     last (trace final) = Some DeleteMessage ∧
     count is_delete (trace final) = 1 ∧
     count is_edit (trace final) = 0).
Proof.
  intros Hrel Hargs Hprompt Hmodel N succeeds final.
  subst final. unfold final_state.
  rewrite (generate_image_direct_run w args model_key m) by done. fold N.
  unfold Handler.try_except, Handler.bind. split.
  - intros k Hk Hbefore Hfail.
    edestruct (loop_first_failure w (parsed_prompt (parse_command_args args)) m
                 (parsed_orientation (parse_command_args args))
                 (orientation_text_of (parsed_orientation (parse_command_args args)))
                 (parsed_count (parse_command_args args)) Hrel N 0
                 (OState [ReplyText
                            (progress_text
                               (num_text_of (parsed_count (parse_command_args args)))
                               (orientation_text_of
                                  (parsed_orientation (parse_command_args args)))
                               (model_name m)
                               (parsed_prompt (parse_command_args args)))] 0 1)
                 (k - 1))
      as (ext & tgc & -> & Hph & Hpo & Hed & Hde).
    + done.
    + lia.
    + intros n Hn. specialize (Hbefore (S n)). unfold succeeds, iteration_succeeds in Hbefore.
      replace (S n - 1) with n in Hbefore by lia. apply Hbefore. lia.
    + exact Hfail.
    + cbn [snd trace gen_calls Handler.ret].
      rewrite (app_assoc _ ext), last_snoc, !count_last, !count_app.
      rewrite Hph, Hpo, Hed, Hde. cbn. split_and!; try done; lia.
  - intros Hall.
    edestruct (loop_all_succeed w (parsed_prompt (parse_command_args args)) m
                 (parsed_orientation (parse_command_args args))
                 (orientation_text_of (parsed_orientation (parse_command_args args)))
                 (parsed_count (parse_command_args args)) Hrel N 0
                 (OState [ReplyText
                            (progress_text
                               (num_text_of (parsed_count (parse_command_args args)))
                               (orientation_text_of
                                  (parsed_orientation (parse_command_args args)))
                               (model_name m)
                               (parsed_prompt (parse_command_args args)))] 0 1))
      as (ext & -> & Hph & Hpo & Hed & Hde).
    + done.
    + intros n Hn. specialize (Hall (S n)). unfold succeeds, iteration_succeeds in Hall.
      replace (S n - 1) with n in Hall by lia. apply Hall. lia.
    + rewrite tg_reliable by done. cbn [snd trace gen_calls].
      rewrite last_snoc, !count_last, !count_app.
      rewrite Hph, Hpo, Hed, Hde. cbn. split_and!; try done; lia.
Qed.

Lemma reliable_example_world answer : reliable (example_world answer).
Proof. split; [done|]. intros c. reflexivity. Qed.

Lemma C2_generation_loop_witness :
  count is_photo (trace (final_state (example_world second_fails_answer)
                           ["-n"; "3"; "fox"] "flux")) = 1 ∧
  gen_calls (final_state (example_world second_fails_answer)
               ["-n"; "3"; "fox"] "flux") = 2 ∧
  last (trace (final_state (example_world second_fails_answer)
                 ["-n"; "3"; "fox"] "flux")) = Some (EditText failure_notice) ∧
  count is_photo (trace (final_state (example_world good_answer)
                           ["-n"; "3"; "fox"] "flux")) = 3 ∧
  last (trace (final_state (example_world good_answer)
                 ["-n"; "3"; "fox"] "flux")) = Some DeleteMessage.
Proof.
  destruct (C2_generation_loop (example_world second_fails_answer)
              ["-n"; "3"; "fox"] "flux" (Model "runware:101@1" "FLUX Dev" false))
    as [Hfail _];
    [apply reliable_example_world | done | by vm_compute | reflexivity |].
  destruct (Hfail 2) as (Hph & Hcalls & _ & Hlast & _);
    [vm_compute; lia
    | intros j Hj; replace j with 1 by lia; by vm_compute
    | by vm_compute |].
  destruct (C2_generation_loop (example_world good_answer)
              ["-n"; "3"; "fox"] "flux" (Model "runware:101@1" "FLUX Dev" false))
    as [_ Hgood];
    [apply reliable_example_world | done | by vm_compute | reflexivity |].
  destruct Hgood as (Hph3 & _ & _ & Hlast3 & _).
  { intros j Hj. change (Z.to_nat _) with 3 in Hj.
    assert (j = 1 ∨ j = 2 ∨ j = 3) as [->|[->| ->]] by lia; by vm_compute. }
  split_and!; [exact Hph | exact Hcalls | exact Hlast | exact Hph3 | exact Hlast3].
Defined.

Lemma usage_no_args_not_progress model_key nt ot name p :
  usage_no_args model_key ≠ progress_text nt ot name p.
Proof.
  intros H.
  apply (f_equal (λ s, match s with String c _ => Some c | EmptyString => None end)) in H.
  by vm_compute in H.
Qed.

Lemma usage_no_prompt_not_progress model_key nt ot name p :
  usage_no_prompt model_key ≠ progress_text nt ot name p.
Proof.
  intros H.
  apply (f_equal (λ s, match s with String c _ => Some c | EmptyString => None end)) in H.
  by vm_compute in H.
Qed.

(** C9.  When no argument token is given, or the parsed prompt is empty,
    [generate_image_direct] makes one call of the chat transport, the reply
    with a usage hint (which is no progress message), and returns: the
    client is not called and no HTTP request is made. *)
Theorem C9_usage_hint_first (w : world) (args : list string) (model_key : string) :
  args = [] ∨ parsed_prompt (parse_command_args args) = EmptyString →
  let outcome := generate_image_direct w args model_key start_state in
  gen_calls outcome.2 = 0 ∧
  tg_calls outcome.2 = 1 ∧
  Forall (λ e, ¬ is_http e) (trace outcome.2) ∧
  ∃ hint,
    (hint = usage_no_args model_key ∨ hint = usage_no_prompt model_key) ∧
    (∀ nt ot name p, hint ≠ progress_text nt ot name p) ∧
    outcome = if tg_raises w 0 then (Raise, OState [] 0 1)
          else (Ret tt, OState [ReplyText hint] 0 1).
Proof.
  intros Hcase outcome. subst outcome. unfold generate_image_direct.
  assert (Hnohttp : ∀ text, Forall (λ e, ¬ is_http e) [ReplyText text])
    by (intros text; constructor; [by intros []|constructor]).
  destruct args as [|a0 rest].
  - unfold Handler.tg, start_state. cbn [tg_calls trace gen_calls].
    destruct (tg_raises w 0); cbn [fst snd trace gen_calls tg_calls].
    all: split; [done|]; split; [done|]; split; [first [apply Hnohttp | by constructor]|].
    all: exists (usage_no_args model_key).
    all: split; [by left|]; split; [apply usage_no_args_not_progress|done].
  - destruct Hcase as [?|Hempty]; [done|].
    destruct (parse_command_args (a0 :: rest)) as [[[o cnt] mx] p].
    unfold parsed_prompt in Hempty. cbn [snd] in Hempty. subst p.
    cbn [Py.truthy_str negb].
    unfold Handler.tg, start_state. cbn [tg_calls trace gen_calls].
    destruct (tg_raises w 0); cbn [fst snd trace gen_calls tg_calls].
    all: split; [done|]; split; [done|]; split; [first [apply Hnohttp | by constructor]|].
    all: exists (usage_no_prompt model_key).
    all: split; [by right|]; split; [apply usage_no_prompt_not_progress|done].
Qed.

Lemma C9_usage_hint_first_witness :
  generate_image_direct (example_world good_answer) ["-l"; "-s"] "flux" start_state =
    (Ret tt, OState [ReplyText (usage_no_prompt "flux")] 0 1) ∧
  generate_image_direct (example_world good_answer) [] "flux" start_state =
    (Ret tt, OState [ReplyText (usage_no_args "flux")] 0 1).
Proof.
  split.
  - destruct (C9_usage_hint_first (example_world good_answer) ["-l"; "-s"] "flux")
      as (_ & _ & _ & hint & Hhint & _ & Hrun); [right; by vm_compute|].
    rewrite Hrun. by vm_compute.
  - destruct (C9_usage_hint_first (example_world good_answer) [] "flux")
      as (_ & _ & _ & hint & Hhint & _ & Hrun); [by left|].
    rewrite Hrun. by vm_compute.
Defined.

(** * Further properties of the code *)

(** ** The parser *)

Lemma classify_word_texts t : classify t = FWord ↔ Py.lower t ∉ flag_texts.
Proof.
  unfold classify, flag_texts.
  repeat case_decide; try case_bool_decide;
    (split; [try done; intros _|try done; intros Hn]);
    set_unfold; try (intros ?; destruct_or?; first [done|tauto|congruence]);
    try (exfalso; apply Hn; tauto).
Qed.

Lemma is_max_flag_text t : is_max_flag t = true ↔ Py.lower t ∈ ["--max"; "-max"].
Proof.
  unfold is_max_flag, classify.
  repeat case_decide; try case_bool_decide;
    (split; intros ?; try done; set_unfold; destruct_or?;
     first [done|congruence|tauto]).
Qed.

(** X1.  The max flag is found wherever it stands and whatever its case:
    [use_max] is returned true exactly when some token lower-cases to
    [--max] or [-max]. *)
Theorem X1_max_flag_anywhere (args : list string) :
  parsed_max (parse_command_args args) = true ↔
  ∃ t, t ∈ args ∧ Py.lower t ∈ ["--max"; "-max"].
Proof.
  rewrite parse_command_args_spec. unfold parsed_max, max_from. cbn [fst snd orb].
  rewrite existsb_exists. split.
  - intros (t & Ht & Hm). exists t. by rewrite list_elem_of_In, <- is_max_flag_text.
  - intros (t & Ht & Hm). exists t. by rewrite <- list_elem_of_In, is_max_flag_text.
Qed.

(** X2.  The last [-n] that has an integer after it decides the count: when
    no [-n] after it has one, the count is that integer, clamped to [1,10]. *)
Theorem X2_last_count_wins (pre post : list string) (t a : string) (v : Z) :
  Py.lower t = "-n" → Py.int a = Some v → count_flag_taken post = false →
  parsed_count (parse_command_args (pre ++ t :: a :: post)) =
  (1 `max` (10 `min` v))%Z.
Proof.
  intros Ht Ha Hpost. rewrite parsed_count_spec.
  assert (Hc : is_count_flag t = true).
  { unfold is_count_flag, classify. rewrite Ht.
    repeat (case_decide as H; [set_unfold in H; destruct_or?; done|clear H]).
    done. }
  assert (Hint : Py.int t = None).
  { apply int_flag_None. unfold is_count_flag in Hc. by destruct (classify t). }
  rewrite count_from_app by (cbn; by rewrite Hint).
  rewrite count_from_cons, Hc, Ha, count_from_untaken by done.
  unfold clamp_count. destruct (Z.ltb_spec v 1); [lia|].
  destruct (Z.gtb_spec v 10); lia.
Qed.

Lemma X2_last_count_wins_witness :
  parsed_count (parse_command_args ["-n"; "2"; "a"; "-N"; "7"; "fox"; "-n"]) = 7%Z ∧
  parsed_count (parse_command_args ["-n"; "2"; "-n"; "٣"]) = 3%Z.
Proof.
  split.
  - apply (X2_last_count_wins ["-n"; "2"; "a"] ["fox"; "-n"] "-N" "7" 7); reflexivity.
  - apply (X2_last_count_wins ["-n"; "2"] [] "-n" "٣" 3); reflexivity.
Defined.

(** X3.  Tokens none of which is a flag text, in any case, pass through
    unchanged: the defaults are returned and the prompt is the tokens
    joined by single spaces. *)
Theorem X3_no_flag_no_change (args : list string) :
  Forall (λ t, Py.lower t ∉ flag_texts) args →
  parse_command_args args = ("portrait", 1%Z, false, Py.join " " args).
Proof.
  intros Hw.
  assert (Hword : Forall (λ t, classify t = FWord) args)
    by (eapply Forall_impl; [done|]; intros t; apply classify_word_texts).
  destruct (unflagged_fixed _ Hword) as [Hfix Huntaken].
  rewrite parse_command_args_spec, Hfix, count_from_untaken by done.
  unfold last_orientation. rewrite orient_from_unflagged.
  - unfold max_from. cbn [orb].
    replace (existsb is_max_flag args) with false; [done|].
    symmetry. apply not_true_is_false. intros (t & Ht & Hm)%existsb_exists.
    apply list_elem_of_In in Ht. rewrite Forall_forall in Hword.
    unfold is_max_flag in Hm. by rewrite (Hword t Ht) in Hm.
  - eapply Forall_impl; [done|]. intros t Ht. unfold orientation_of_flag.
    by rewrite Ht.
Qed.

Lemma X3_no_flag_no_change_witness :
  parse_command_args ["a"; "red"; "fox"; "--bright"; "10"] =
  ("portrait", 1%Z, false, "a red fox --bright 10").
Proof.
  rewrite (X3_no_flag_no_change ["a"; "red"; "fox"; "--bright"; "10"]);
    [reflexivity|].
  apply (bool_decide_unpack _). by vm_compute.
Defined.

(** ** The client *)

Section client_more.
Import Client.
Context (w : world) (n : nat).

Lemma download_run (url : json) :
  download_image_as_base64 w n url =
    (Ret (download_outcome w n url),
     match url with JStr u => [HttpGet u] | _ => [] end).
Proof.
  unfold download_image_as_base64, download_outcome, http_get, try_except,
    bind, emit, lift, raise, ret.
  destruct url as [| | | |u| |]; try done. cbn.
  destruct (fetch w n u) as [[status content]|]; [|done].
  by destruct (status =? 200)%Z.
Qed.

(** X7.  [download_image_as_base64] never raises; it returns text exactly
    when the locator is a string whose GET is answered with status 200, the
    text being the encoding of the body, and [None] in every other case;
    it makes one GET for a string locator and none otherwise. *)
Theorem X7_download_characterized (url : json) :
  download_image_as_base64 w n url =
    (Ret (download_outcome w n url),
     match url with JStr u => [HttpGet u] | _ => [] end) ∧
  (∀ b, download_outcome w n url = Some b ↔
        ∃ u content, url = JStr u ∧ fetch w n u = Ret (200%Z, content) ∧
                     b = b64encode w content).
Proof.
  split; [apply download_run|].
  intros b. unfold download_outcome. split.
  - destruct url as [| | | |u| |]; try done.
    destruct (fetch w n u) as [[status content]|] eqn:Hf; [|done].
    destruct (Z.eqb_spec status 200) as [->|]; [|done].
    intros [= <-]. eauto.
  - intros (u & content & -> & -> & ->). done.
Qed.

Lemma any_error_plain items :
  Forall plain_object items → any_error items = Ret false.
Proof.
  induction 1 as [|item items (m & -> & Hm) _ IH]; [done|].
  cbn. rewrite Hm. done.
Qed.

(** Every object is an inference result for [tok] with a true locator, or
    one that the loop passes over. *)
Lemma other_result_iff tok m :
  other_result tok (JObj m) ↔ ¬ inference_result_for tok (JObj m).
Proof.
  split.
  - intros (m1 & [= <-] & Hother) (m2 & url & [= <-] & Hty & Hu & Hurl & Htrue).
    destruct Hother as [?|[?|[Hnone|(url' & Hurl' & Hfalse)]]]; try done.
    + by rewrite Hurl in Hnone.
    + rewrite Hurl in Hurl'. injection Hurl' as <-. by rewrite Htrue in Hfalse.
  - intros Hnot. exists m. split; [done|].
    destruct (m !! "taskType") as [[| | | |sty| |]|] eqn:Hty; try (by left).
    destruct (decide (sty = "imageInference")) as [->|]; [|left; congruence].
    destruct (m !! "taskUUID") as [[| | | |su| |]|] eqn:Hu; try (by right; left).
    destruct (decide (su = tok)) as [->|]; [|right; left; congruence].
    destruct (m !! "imageURL") as [url|] eqn:Hurl; [|by right; right; left].
    destruct (Json.truthy url) eqn:Htrue; [|by right; right; right; exists url].
    destruct Hnot. by exists m, url.
Qed.

(** The loop passes over such an element: neither a request nor a return. *)
Lemma find_image_skip tok item items :
  other_result tok item →
  find_image w n tok (item :: items) = find_image w n tok items.
Proof.
  intros (m & -> & Hother). cbn [find_image].
  unfold bind, lift, item_matches, Json.get, Json.get_default, Json.contains.
  destruct (find_image w n tok items) as [r t].
  destruct (m !! "taskType") as [ty|] eqn:Hty; cbn; [|done].
  destruct (Json.eq_str ty "imageInference") eqn:Heqty; cbn; [|done].
  destruct (m !! "taskUUID") as [u|] eqn:Hu; cbn; [|done].
  destruct (Json.eq_str u tok) eqn:Hequ; cbn; [|done].
  destruct ty as [| | | |sty| |]; try done. destruct u as [| | | |su| |]; try done.
  cbn in Heqty, Hequ.
  apply bool_decide_eq_true in Heqty as ->. apply bool_decide_eq_true in Hequ as ->.
  destruct Hother as [?|[?|[Hnone|(url & Hurl & Hfalse)]]]; try done.
  - rewrite Hnone. rewrite bool_decide_eq_false_2 by (by intros [? ?]).
    done.
  - rewrite Hurl. rewrite bool_decide_eq_true_2 by done. cbn.
    by rewrite Hfalse.
Qed.

Lemma item_matches_result tok m url :
  m !! "taskType" = Some (JStr "imageInference") →
  m !! "taskUUID" = Some (JStr tok) →
  m !! "imageURL" = Some url →
  item_matches tok (JObj m) = Ret true.
Proof.
  intros Hty Hu Hurl. unfold item_matches, Json.get, Json.get_default.
  rewrite Hty, Hu. cbn. rewrite !bool_decide_eq_true_2 by done. cbn.
  rewrite ?Hurl, ?bool_decide_eq_true_2 by done. done.
Qed.

Lemma find_image_first_match tok pre m url post :
  Forall (other_result tok) pre →
  m !! "taskType" = Some (JStr "imageInference") →
  m !! "taskUUID" = Some (JStr tok) →
  m !! "imageURL" = Some url → Json.truthy url = true →
  find_image w n tok (pre ++ JObj m :: post) = download_image_as_base64 w n url.
Proof.
  intros Hpre Hty Hu Hurl Htrue.
  induction Hpre as [|item pre Hitem _ IH].
  - cbn [app find_image]. unfold bind, lift.
    rewrite (item_matches_result tok m url) by done.
    unfold Json.get, Json.get_default. rewrite Hurl. cbn. rewrite Htrue.
    by destruct (download_image_as_base64 w n url).
  - change ((item :: pre) ++ JObj m :: post) with (item :: pre ++ JObj m :: post).
    by rewrite find_image_skip.
Qed.

Lemma find_image_events_length tok items :
  length (find_image w n tok items).2 ≤ 1.
Proof.
  induction items as [|item items IH]; [cbn; lia|].
  cbn [find_image]. unfold bind, lift.
  destruct (item_matches tok item) as [[]|]; cbn; try lia.
  - destruct (Json.get item "imageURL") as [url|]; cbn; [|lia].
    destruct (Json.truthy url).
    + rewrite download_run. destruct url; cbn; lia.
    + by destruct (find_image w n tok items).
  - by destruct (find_image w n tok items).
Qed.

Context (prompt model_id orientation : string) (reference : option string).

Ltac client_step :=
  cbv beta iota zeta delta
    [generate_image try_except bind http_post emit lift ret];
  cbn [fst snd app negb].

(** X4.  A request that fails gives [None]: when the POST raises, or is
    answered with a status other than 200, or with a body that is no JSON,
    [generate_image] returns [None] after that one POST and makes no GET. *)
Theorem X4_failed_request_gives_none :
  (post w n api_url (posted w n prompt model_id orientation reference) = Raise ∨
   ∃ status body,
     post w n api_url (posted w n prompt model_id orientation reference) =
       Ret (status, body) ∧
     (status ≠ 200%Z ∨ body = Raise)) →
  generate_image w n prompt model_id orientation reference =
  (Ret None, [HttpPost api_url (posted w n prompt model_id orientation reference)]).
Proof.
  intros Hfail. client_step.
  fold (posted w n prompt model_id orientation reference).
  destruct Hfail as [-> | (status & body & -> & Hbad)]; [done|]. client_step.
  destruct (Z.eqb_spec status 200) as [->|]; client_step; [|done].
  destruct Hbad as [?| ->]; done.
Qed.

(** X5.  Whatever the service answers, one call of [generate_image] returns
    (it raises nothing), posts the job exactly once, first, and makes at
    most one GET after it. *)
Theorem X5_one_post_at_most_one_get :
  ∃ r rest,
    generate_image w n prompt model_id orientation reference =
    (Ret r, HttpPost api_url (posted w n prompt model_id orientation reference) :: rest) ∧
    length rest ≤ 1 ∧ Forall is_http_get rest.
Proof.
  client_step. fold (posted w n prompt model_id orientation reference).
  destruct (post w n api_url (posted w n prompt model_id orientation reference))
    as [[status [result|]]|]; client_step;
    try (destruct (status =? 200)%Z; client_step);
    try (eexists _, []; split; [reflexivity|split; [cbn; lia|constructor]]).
  destruct (has_error result) as [[]|]; client_step;
    try (eexists _, []; split; [reflexivity|split; [cbn; lia|constructor]]).
  destruct (items_to_check result) as [items|]; client_step;
    try (eexists _, []; split; [reflexivity|split; [cbn; lia|constructor]]).
  pose proof (find_image_events_length (uuid4 w n) items) as Hlen.
  pose proof (find_image_events w n (uuid4 w n) items) as Hev.
  destruct (find_image w n (uuid4 w n) items) as [[r|] t]; client_step;
    rewrite ?app_nil_r; eauto.
Qed.

(** X6.  In a top-level list of result objects without errors, the first
    element that is an inference result for the call's token with a true
    locator decides, whatever stands before it: elements of another type or
    token, without a locator, or with a locator that is not true are passed
    over.  [generate_image] returns what the download of that locator gives,
    the encoded body or [None], and after its POST it makes the GET of that
    locator and no other request: no later element is tried. *)
Theorem X6_first_match_decides (before after : list json) (m : gmap string json)
    (url : json) :
  post w n api_url (posted w n prompt model_id orientation reference) =
    Ret (200%Z, Ret (JList (before ++ JObj m :: after))) →
  Forall plain_object (before ++ JObj m :: after) →
  Forall (λ item, ¬ inference_result_for (uuid4 w n) item) before →
  inference_result_for (uuid4 w n) (JObj m) →
  m !! "imageURL" = Some url →
  generate_image w n prompt model_id orientation reference =
  (Ret (download_outcome w n url),
   HttpPost api_url (posted w n prompt model_id orientation reference) ::
   match url with JStr u => [HttpGet u] | _ => [] end).
Proof.
  intros Hpost Hplain Hpre (m' & url' & [= <-] & Hty & Hu & Hurl' & Htrue) Hurl.
  rewrite Hurl in Hurl'. injection Hurl' as <-.
  assert (Hskip : Forall (other_result (uuid4 w n)) before).
  { apply Forall_app in Hplain as [Hplain _].
    rewrite Forall_forall in *. intros item Hitem.
    destruct (Hplain item Hitem) as (mi & -> & _).
    apply other_result_iff. by apply Hpre. }
  client_step. fold (posted w n prompt model_id orientation reference).
  rewrite Hpost. client_step. cbn [has_error items_to_check].
  rewrite any_error_plain by done. client_step.
  rewrite (find_image_first_match _ before m url after) by done.
  by rewrite download_run.
Qed.

End client_more.

Lemma X6_first_match_decides_witness :
  generate_image (example_world three_results_answer) 0 "a red fox" "runware:101@1"
    "portrait" None =
  (Ret (Some "b64:img"),
   [HttpPost api_url
      (posted (example_world three_results_answer) 0 "a red fox" "runware:101@1"
         "portrait" None);
    HttpGet "https://im.example/2.jpg"]).
Proof.
  apply (X6_first_match_decides (example_world three_results_answer) 0
           "a red fox" "runware:101@1" "portrait" None
           [JObj (result_for "token-9");
            JObj (<["imageURL" := JStr EmptyString]> (result_for "token-0"))] []
           (<["imageURL" := JStr "https://im.example/2.jpg"]> (result_for "token-0"))
           (JStr "https://im.example/2.jpg")).
  - reflexivity.
  - repeat constructor; eexists; (split; [reflexivity|by vm_compute]).
  - repeat constructor.
    + intros (m & url & [= <-] & _ & Hu & _). by vm_compute in Hu.
    + intros (m & url & [= <-] & _ & _ & Hurl & Htrue).
      vm_compute in Hurl. injection Hurl as <-. done.
  - eexists _, _. split_and!; [reflexivity|by vm_compute..].
  - by vm_compute.
Defined.

Lemma X4_failed_request_gives_none_witness :
  generate_image (example_world second_fails_answer) 1 "a red fox" "runware:101@1"
    "portrait" None =
  (Ret None,
   [HttpPost api_url
      (posted (example_world second_fails_answer) 1 "a red fox" "runware:101@1"
         "portrait" None)]).
Proof.
  apply X4_failed_request_gives_none. right.
  exists 500%Z, Raise. split; [reflexivity|]. by left.
Defined.

Lemma count_range_of args :
  (1 ≤ parsed_count (parse_command_args args) ≤ 10)%Z.
Proof. rewrite parsed_count_spec. by apply count_from_range. Qed.

(** ** Invariants of the handlers, in any world *)

Section ensures_rules.
Import Handler.
Context {A B : Type}.

Lemma ensures_weaken (P P' Q Q' : ostate → Prop) (m : M A) :
  ensures P m Q → (∀ s, P' s → P s) → (∀ s, Q s → Q' s) → ensures P' m Q'.
Proof. intros Hm HP HQ s Hs. by apply HQ, Hm, HP. Qed.

Lemma ensures_ret (P : ostate → Prop) (a : A) : ensures P (ret a) P.
Proof. by intros s Hs. Qed.

Lemma ensures_lift (P : ostate → Prop) (e : exc A) : ensures P (lift e) P.
Proof. by intros s Hs. Qed.

Lemma ensures_bind (P R Q : ostate → Prop) (m : M A) (k : A → M B) :
  ensures P m R → (∀ a, ensures R (k a) Q) → (∀ s, R s → Q s) →
  ensures P (bind m k) Q.
Proof.
  intros Hm Hk HRQ s Hs. unfold bind. specialize (Hm s Hs).
  destruct (m s) as [[a|] s']; cbn in *; [by apply Hk|by apply HRQ].
Qed.

Lemma ensures_try (P R Q : ostate → Prop) (m h : M A) :
  ensures P m R → ensures R h Q → (∀ s, R s → Q s) →
  ensures P (try_except m h) Q.
Proof.
  intros Hm Hh HRQ s Hs. unfold try_except. specialize (Hm s Hs).
  destruct (m s) as [[a|] s']; cbn in *; [by apply HRQ|by apply Hh].
Qed.

End ensures_rules.

Lemma ensures_tg (P Q : ostate → Prop) w e :
  (∀ s, P s → Q (OState (trace s) (gen_calls s) (S (tg_calls s)))) →
  (∀ s, P s → Q (OState (trace s ++ [e]) (gen_calls s) (S (tg_calls s)))) →
  ensures P (Handler.tg w e) Q.
Proof.
  intros Hraise Hok s Hs. unfold Handler.tg.
  destruct (tg_raises w (tg_calls s)); cbn; auto.
Qed.

Lemma ensures_call_client {A} (P Q : ostate → Prop) (c : nat → Client.W A) :
  (∀ s, P s → Q (OState (trace s ++ (c (gen_calls s)).2) (S (gen_calls s)) (tg_calls s))) →
  ensures P (Handler.call_client c) Q.
Proof.
  intros Hc s Hs. unfold Handler.call_client. specialize (Hc s Hs).
  by destruct (c (gen_calls s)).
Qed.

Lemma count_client_posts w n prompt model_id orientation reference :
  count is_post (generate_image w n prompt model_id orientation reference).2 = 1.
Proof.
  destruct (generate_image_events w n prompt model_id orientation reference)
    as (rest & -> & Hrest).
  cbn. by rewrite (count_http_get is_post rest).
Qed.

Lemma count_client_photos w n prompt model_id orientation reference :
  count is_photo (generate_image w n prompt model_id orientation reference).2 = 0.
Proof.
  destruct (generate_image_events w n prompt model_id orientation reference)
    as (rest & -> & Hrest).
  cbn. by rewrite (count_http_get is_photo rest).
Qed.

(** The loop of the direct path keeps the counts in step, and makes at
    most one client call for every value of its range. *)
Lemma generate_loop_counts w prompt m orientation orientation_text num_images bound :
  ∀ range,
    ensures (λ s, counts_in_step s ∧ gen_calls s + length range ≤ bound)
            (generate_loop w prompt m orientation orientation_text num_images range)
            (λ s, counts_in_step s ∧ gen_calls s ≤ bound).
Proof.
  induction range as [|i range IH].
  { intros s [? Hb]. cbn in *. split; [done|lia]. }
  cbn [generate_loop].
  eapply (ensures_bind _
            (λ s, count is_post (trace s) = gen_calls s ∧
                  S (count is_photo (trace s)) ≤ gen_calls s ∧
                  gen_calls s + length range ≤ bound)).
  - apply ensures_call_client. intros s [[Hpo Hph] Hb]. cbn [trace gen_calls].
    rewrite !count_app, count_client_posts, count_client_photos.
    cbn [length] in Hb. lia.
  - intros image. destruct (truthy_opt image).
    + eapply (ensures_bind _
                (λ s, count is_post (trace s) = gen_calls s ∧
                      S (count is_photo (trace s)) ≤ gen_calls s ∧
                      gen_calls s + length range ≤ bound));
        [apply ensures_lift| |].
      * intros bytes.
        eapply (ensures_bind _
                  (λ s, counts_in_step s ∧ gen_calls s + length range ≤ bound));
          [|intros _; apply IH|].
        -- apply ensures_tg; intros s (Hpo & Hph & Hb);
             unfold counts_in_step; cbn [trace gen_calls];
             rewrite ?count_last; cbn [is_photo is_post]; lia.
        -- unfold counts_in_step. intros s [[? ?] ?]. lia.
      * unfold counts_in_step. intros s (Hpo & Hph & Hb). lia.
    + eapply (ensures_bind _ (λ s, counts_in_step s ∧ gen_calls s ≤ bound));
        [|intros _; apply ensures_ret|done].
      apply ensures_tg; intros s (Hpo & Hph & Hb);
        unfold counts_in_step; cbn [trace gen_calls];
        rewrite ?count_last; cbn [is_photo is_post]; lia.
  - unfold counts_in_step. intros s (Hpo & Hph & Hb). lia.
Qed.

(** A call of the chat transport that delivers neither a photo nor a POST
    keeps the counts in step and makes no client call. *)
Lemma tg_counts (P : nat → Prop) w e :
  is_photo e = false → is_post e = false →
  ensures (λ s, counts_in_step s ∧ P (gen_calls s)) (Handler.tg w e)
          (λ s, counts_in_step s ∧ P (gen_calls s)).
Proof.
  intros Hph Hpo. apply ensures_tg; intros s [[? ?] ?];
    unfold counts_in_step; cbn [trace gen_calls];
    rewrite ?count_last, ?Hph, ?Hpo; (split; [lia|done]).
Qed.

Lemma direct_counts w args model_key :
  ensures (λ s, counts_in_step s ∧ gen_calls s = 0)
          (generate_image_direct w args model_key)
          (λ s, counts_in_step s ∧
                gen_calls s ≤ Z.to_nat (parsed_count (parse_command_args args))).
Proof.
  set (N := Z.to_nat (parsed_count (parse_command_args args))).
  assert (Hstay : ∀ s : ostate,
            counts_in_step s ∧ gen_calls s = 0 → counts_in_step s ∧ gen_calls s ≤ N)
    by (intros s [? ->]; split; [done|lia]).
  assert (Hhint : ∀ e, is_photo e = false → is_post e = false →
            ensures (λ s, counts_in_step s ∧ gen_calls s = 0) (Handler.tg w e)
                    (λ s, counts_in_step s ∧ gen_calls s ≤ N)).
  { intros e Hph Hpo.
    eapply ensures_weaken; [apply (tg_counts (λ g, g = 0) w e Hph Hpo)|done|exact Hstay]. }
  unfold generate_image_direct. destruct args as [|a0 rest]; [by apply Hhint|].
  subst N. destruct (parse_command_args (a0 :: rest)) as [[[o cnt] mx] p].
  unfold parsed_count in *. cbn [fst snd] in *.
  destruct (negb (Py.truthy_str p)); [by apply Hhint|].
  eapply (ensures_bind _ (λ s, counts_in_step s ∧ gen_calls s = 0));
    [apply ensures_lift| |exact Hstay].
  intros m.
  eapply (ensures_bind _ (λ s, counts_in_step s ∧ gen_calls s = 0));
    [by apply (tg_counts (λ g, g = 0))| |exact Hstay].
  intros _.
  eapply (ensures_try _ (λ s, counts_in_step s ∧ gen_calls s ≤ Z.to_nat cnt));
    [| |done].
  - eapply (ensures_bind _ (λ s, counts_in_step s ∧ gen_calls s ≤ Z.to_nat cnt));
      [| |done].
    + eapply ensures_weaken;
        [apply (generate_loop_counts _ _ _ _ _ _ (Z.to_nat cnt))| |done].
      intros s [? ->]. rewrite length_seq. split; [done|lia].
    + intros [].
      * by apply (tg_counts (λ g, g ≤ Z.to_nat cnt)).
      * apply ensures_ret.
  - by apply (tg_counts (λ g, g ≤ Z.to_nat cnt)).
Qed.

(** X8.  In every world, whatever the service and the chat transport do,
    [generate_image_direct] calls the client at most as many times as the
    parsed count, hence at most 10 times; every call posts exactly one job,
    and no more photos are delivered than calls were made. *)
Theorem X8_direct_calls_bounded (w : world) (args : list string) (model_key : string) :
  gen_calls (final_state w args model_key) ≤
    Z.to_nat (parsed_count (parse_command_args args)) ∧
  gen_calls (final_state w args model_key) ≤ 10 ∧
  count is_post (trace (final_state w args model_key)) =
    gen_calls (final_state w args model_key) ∧
  count is_photo (trace (final_state w args model_key)) ≤
    gen_calls (final_state w args model_key).
Proof.
  pose proof (count_range_of args) as Hrange.
  destruct (direct_counts w args model_key start_state) as [[Hpo Hph] Hcalls].
  { split; [split; cbn; lia|done]. }
  fold (final_state w args model_key) in Hpo, Hph, Hcalls.
  split_and!; try done; lia.
Qed.

Lemma ensures_bind_ret {A B} (P Q : ostate → Prop) (a : A) (k : A → Handler.M B) :
  ensures P (k a) Q → ensures P (Handler.bind (Handler.lift (Ret a)) k) Q.
Proof. intros Hk s Hs. by apply Hk. Qed.

Lemma all_events_tg (Q : event → Prop) w e :
  Q e → ensures (all_events Q) (Handler.tg w e) (all_events Q).
Proof.
  intros He. apply ensures_tg; unfold all_events; intros s Hs; cbn [trace];
    [done|]. apply Forall_app. split; [done|by constructor].
Qed.

Lemma all_events_call_client {A} (Q : event → Prop) (c : nat → Client.W A) :
  (∀ n, Forall Q (c n).2) →
  ensures (all_events Q) (Handler.call_client c) (all_events Q).
Proof.
  intros Hc. apply ensures_call_client. unfold all_events. intros s Hs.
  cbn [trace]. apply Forall_app. by split.
Qed.

(** The loop of the direct path adds to the trace only the events of its
    client calls, photos, and the failure notice. *)
Lemma generate_loop_events (Q : event → Prop) w prompt m orientation
    orientation_text num_images :
  (∀ n, Forall Q (generate_image w n prompt (model_id m) orientation None).2) →
  (∀ photo text, Q (ReplyPhoto photo text)) → (∀ text, Q (EditText text)) →
  ∀ range,
    ensures (all_events Q)
            (generate_loop w prompt m orientation orientation_text num_images range)
            (all_events Q).
Proof.
  intros Hclient Hphoto Hedit. induction range as [|i range IH]; [by intros s Hs|].
  cbn [generate_loop].
  eapply (ensures_bind _ (all_events Q)); [by apply all_events_call_client| |done].
  intros image. destruct (truthy_opt image).
  - eapply (ensures_bind _ (all_events Q)); [apply ensures_lift| |done].
    intros bytes.
    eapply (ensures_bind _ (all_events Q)); [by apply all_events_tg| |done].
    intros _. apply IH.
  - eapply (ensures_bind _ (all_events Q)); [by apply all_events_tg| |done].
    intros _. apply ensures_ret.
Qed.

Lemma direct_job_other prompt model_id orientation e :
  is_post e = false → direct_job prompt model_id orientation e.
Proof. destruct e; done. Qed.

Lemma client_events_direct_job w n prompt model_id orientation :
  Forall (direct_job prompt model_id orientation)
         (generate_image w n prompt model_id orientation None).2.
Proof.
  destruct (generate_image_events w n prompt model_id orientation None)
    as (rest & -> & Hrest).
  constructor.
  - unfold posted, build_payload, direct_job.
    destruct (get_dimensions model_id orientation) as [width height].
    cbn [truthy_opt andb fmap list_fmap base_payload post_has post_lacks fst snd].
    split_and!; reflexivity.
  - eapply Forall_impl; [done|]. intros e He.
    apply direct_job_other. by destruct e.
Qed.

(** X9.  Every job that [generate_image_direct] posts carries the prompt
    the parser returned, the registry id of the model of the command, the
    width and height that [get_dimensions] gives for that id and the parsed
    orientation, and no reference image. *)
Theorem X9_direct_jobs_carry_request
    (w : world) (args : list string) (model_key : string) (m : model) :
  MODELS !! model_key = Some m →
  Forall (direct_job (parsed_prompt (parse_command_args args)) (model_id m)
            (parsed_orientation (parse_command_args args)))
         (trace (final_state w args model_key)).
Proof.
  intros Hm. unfold final_state.
  set (Q := direct_job (parsed_prompt (parse_command_args args)) (model_id m)
              (parsed_orientation (parse_command_args args))).
  enough (ensures (all_events Q) (generate_image_direct w args model_key)
                  (all_events Q)) as H by (apply H; constructor).
  assert (Htg : ∀ e, is_post e = false →
            ensures (all_events Q) (Handler.tg w e) (all_events Q))
    by (intros e He; apply all_events_tg; by apply direct_job_other).
  unfold generate_image_direct. destruct args as [|a0 rest]; [by apply Htg|].
  subst Q. destruct (parse_command_args (a0 :: rest)) as [[[o cnt] mx] p].
  unfold parsed_prompt, parsed_orientation in *. cbn [fst snd] in *.
  destruct (negb (Py.truthy_str p)); [by apply Htg|].
  unfold lookup_model. rewrite Hm. apply ensures_bind_ret.
  eapply (ensures_bind _ (all_events (direct_job p (model_id m) o)));
    [by apply Htg| |done].
  intros _.
  eapply (ensures_try _ (all_events (direct_job p (model_id m) o)));
    [|by apply Htg|done].
  eapply (ensures_bind _ (all_events (direct_job p (model_id m) o))); [| |done].
  - apply generate_loop_events.
    + intros n. apply client_events_direct_job.
    + intros photo text. by apply direct_job_other.
    + intros text. by apply direct_job_other.
  - intros []; [by apply Htg|apply ensures_ret].
Qed.

Lemma X9_direct_jobs_carry_request_witness :
  Forall (direct_job "a red fox" "runware:101@1" "landscape")
         (trace (final_state (example_world good_answer)
                   ["-n"; "2"; "-l"; "a"; "red"; "fox"] "flux")).
Proof.
  apply (X9_direct_jobs_carry_request (example_world good_answer)
           ["-n"; "2"; "-l"; "a"; "red"; "fox"] "flux"
           (Model "runware:101@1" "FLUX Dev" false)).
  reflexivity.
Defined.

(** ** The editing path *)

(** X10.  [upload_telegram_image] never raises and makes one call of the
    chat transport; when that call raises it returns [None] with no HTTP
    request, and otherwise it makes one GET of the file's path and returns
    the base64 of the body exactly when the GET is answered with status
    200, [None] in every other case. *)
Theorem X10_upload_characterized (w : world) (f : files) (file_id : string)
    (s : ostate) :
  upload_telegram_image w f file_id s =
    (if tg_raises w (tg_calls s) then
       (Ret None, OState (trace s) (gen_calls s) (S (tg_calls s)))
     else
       (Ret (upload_outcome w f file_id),
        OState (trace s ++ [HttpGet (file_path_of f file_id)]) (gen_calls s)
               (S (tg_calls s)))) ∧
  (∀ b, upload_outcome w f file_id = Some b ↔
        ∃ content, file_fetch f (file_path_of f file_id) = Ret (200%Z, content) ∧
                   b = b64encode w content).
Proof.
  split.
  - unfold upload_telegram_image, Handler.try_except, Handler.bind, get_file,
      file_get, Handler.ret, upload_outcome.
    destruct (tg_raises w (tg_calls s)); cbn; [done|].
    destruct (file_fetch f (file_path_of f file_id)) as [[status content]|];
      cbn; [|done].
    by destruct (status =? 200)%Z.
  - intros b. unfold upload_outcome.
    destruct (file_fetch f (file_path_of f file_id)) as [[status content]|];
      [|split; [done|by intros (? & ? & _)]].
    destruct (Z.eqb_spec status 200) as [->|Hne].
    + split; [intros [= <-]; eauto|]. by intros (c & [= ->] & ->).
    + split; [done|]. intros (c & [= ? ?] & _). done.
Qed.

Lemma caption_request_parsed caption :
  parsed_prompt (parse_command_args (Py.split caption)) ≠ EmptyString →
  caption_request caption = parse_command_args (Py.split caption).
Proof.
  unfold caption_request, parsed_prompt.
  destruct (parse_command_args (Py.split caption)) as [[[o cnt] mx] p].
  cbn [snd]. by destruct p.
Qed.

Lemma caption_request_fallback caption :
  parsed_prompt (parse_command_args (Py.split caption)) = EmptyString →
  caption_request caption = ("portrait", 1%Z, false, caption).
Proof.
  unfold caption_request, parsed_prompt.
  destruct (parse_command_args (Py.split caption)) as [[[o cnt] mx] p].
  cbn [snd]. by intros ->.
Qed.

(** X11.  The request made from a caption that is not empty always has a
    prompt: when the parser leaves a prompt, the request is what the parser
    returned; when it leaves none (the caption holds only flags), every
    flag is dropped and the request is the whole caption as the prompt with
    portrait, count 1 and no max flag.  The count is in [1,10] and the
    orientation is one of the three in both cases. *)
Theorem X11_caption_request_has_prompt (caption : string) :
  caption ≠ EmptyString →
  parsed_prompt (caption_request caption) ≠ EmptyString ∧
  (1 ≤ parsed_count (caption_request caption) ≤ 10)%Z ∧
  parsed_orientation (caption_request caption) ∈ ["portrait"; "landscape"; "square"] ∧
  (parsed_prompt (parse_command_args (Py.split caption)) = EmptyString →
     caption_request caption = ("portrait", 1%Z, false, caption)) ∧
  (parsed_prompt (parse_command_args (Py.split caption)) ≠ EmptyString →
     caption_request caption = parse_command_args (Py.split caption)).
Proof.
  intros Hc.
  destruct (decide (parsed_prompt (parse_command_args (Py.split caption)) = EmptyString))
    as [Hempty|Hfull].
  - rewrite (caption_request_fallback caption Hempty).
    split_and!; try done. set_solver.
  - rewrite (caption_request_parsed caption Hfull).
    split; [done|]. split; [apply count_range_of|]. split; [|done].
    rewrite parsed_orientation_spec. apply orient_from_valid. set_solver.
Qed.

Lemma X11_caption_request_has_prompt_witness :
  caption_request "-l -max -n 3" = ("portrait", 1%Z, false, "-l -max -n 3") ∧
  caption_request "-l -max -n 3 sketch" = ("landscape", 3%Z, true, "sketch").
Proof.
  split.
  - apply (X11_caption_request_has_prompt "-l -max -n 3"); [done|by vm_compute].
  - rewrite (proj2 (proj2 (proj2 (proj2
              (X11_caption_request_has_prompt "-l -max -n 3 sketch" ltac:(done))))));
      by vm_compute.
Defined.

(** ** A delivery that fails *)

(** X13.  When the chat transport raises on the delivery of the first photo
    (and not on the progress message before nor on the call after), the
    exception is caught: the handler returned, the last thing done is the
    edit of the progress message to the error notice, the photo is not in
    the trace, and no second client call is made. *)
Theorem X13_delivery_failure_reported
    (w : world) (args : list string) (model_key : string) (m : model) :
  (∀ c, b64decode w (b64encode w c) = Ret c) →
  tg_raises w 0 = false → tg_raises w 1 = true → tg_raises w 2 = false →
  args ≠ [] →
  parsed_prompt (parse_command_args args) ≠ EmptyString →
  MODELS !! model_key = Some m →
  iteration_succeeds w (parsed_prompt (parse_command_args args)) m
    (parsed_orientation (parse_command_args args)) 1 = true →
  generate_image_direct w args model_key start_state =
  (Ret tt,
   OState ([ReplyText
              (progress_text (num_text_of (parsed_count (parse_command_args args)))
                 (orientation_text_of (parsed_orientation (parse_command_args args)))
                 (model_name m) (parsed_prompt (parse_command_args args)))] ++
           (generate_image w 0 (parsed_prompt (parse_command_args args)) (model_id m)
              (parsed_orientation (parse_command_args args)) None).2 ++
           [EditText error_notice])
          1 3).
Proof.
  intros Hcodec H0 H1 H2 Hargs Hprompt Hm Hok.
  pose proof (count_range_of args) as Hrange.
  unfold generate_image_direct, iteration_succeeds in *.
  destruct args as [|a0 rest]; [done|].
  destruct (parse_command_args (a0 :: rest)) as [[[o cnt] mx] p].
  unfold parsed_prompt, parsed_count, parsed_orientation in *. cbn [fst snd] in *.
  destruct p as [|c p]; [done|]. cbn [Py.truthy_str negb].
  unfold lookup_model. rewrite Hm.
  unfold Handler.bind at 1, Handler.lift.
  unfold Handler.bind at 1. unfold Handler.tg at 1, start_state.
  cbn [tg_calls trace gen_calls]. rewrite H0.
  destruct (Z.to_nat cnt) as [|N'] eqn:HN; [lia|]. cbn [seq generate_loop].
  unfold Handler.try_except. unfold Handler.bind at 1. unfold Handler.bind at 1.
  rewrite call_client_generate. cbn [gen_calls trace tg_calls].
  change (1 - 1) with 0 in Hok.
  destruct (client_result w 0 (String c p) m o) as [b|] eqn:Hb; [|done].
  rewrite Hok. destruct (client_result_encoded _ _ _ _ _ _ Hb) as [content ->].
  cbn [default]. unfold id.
  unfold Handler.bind at 1, Handler.lift. rewrite Hcodec.
  unfold Handler.bind at 1. unfold Handler.tg at 1. cbn [tg_calls trace gen_calls].
  rewrite H1. unfold Handler.tg. cbn [tg_calls trace gen_calls]. rewrite H2.
  by rewrite <- app_assoc.
Qed.

Lemma X13_delivery_failure_reported_witness :
  last (trace (final_state (flaky_world 1) ["-n"; "3"; "fox"] "flux")) =
    Some (EditText error_notice) ∧
  gen_calls (final_state (flaky_world 1) ["-n"; "3"; "fox"] "flux") = 1.
Proof.
  assert (Hrun := X13_delivery_failure_reported (flaky_world 1)
                    ["-n"; "3"; "fox"] "flux"
                    (Model "runware:101@1" "FLUX Dev" false)
                    (λ c, eq_refl) eq_refl eq_refl eq_refl).
  unfold final_state. rewrite Hrun; [|done|by vm_compute|reflexivity|by vm_compute].
  split; [|reflexivity]. cbn [snd trace]. by rewrite app_assoc, last_snoc.
Defined.

(** The two ways an upload ends. *)
Lemma upload_run w f file_id s :
  upload_telegram_image w f file_id s =
    (Ret None, OState (trace s) (gen_calls s) (S (tg_calls s))) ∨
  upload_telegram_image w f file_id s =
    (Ret (upload_outcome w f file_id),
     OState (trace s ++ [HttpGet (file_path_of f file_id)]) (gen_calls s)
            (S (tg_calls s))).
Proof.
  unfold upload_telegram_image, Handler.try_except, Handler.bind, get_file,
    file_get, Handler.ret, upload_outcome.
  destruct (tg_raises w (tg_calls s)); cbn; [by left|right].
  destruct (file_fetch f (file_path_of f file_id)) as [[status content]|];
    cbn; [|done].
  by destruct (status =? 200)%Z.
Qed.

Lemma ensures_bind_val {A B} (P Q : ostate → Prop) (R : A → ostate → Prop)
    (m : Handler.M A) (k : A → Handler.M B) :
  (∀ s, P s → match (m s).1 with
              | Ret a => R a (m s).2
              | Raise => Q (m s).2
              end) →
  (∀ a, ensures (R a) (k a) Q) →
  ensures P (Handler.bind m k) Q.
Proof.
  intros Hm Hk s Hs. unfold Handler.bind. specialize (Hm s Hs).
  destruct (m s) as [[a|] s']; cbn in *; [by apply Hk|done].
Qed.

Lemma lookup_edit_model mx :
  lookup_model (edit_model_key mx) =
  Ret (if mx then Model "bfl:4@1" "Kontext Max" true
       else Model "bfl:3@1" "Kontext Pro" true).
Proof. by destruct mx. Qed.

Lemma edit_job_other prompt model_id reference e :
  is_post e = false → edit_job prompt model_id reference e.
Proof. destruct e; done. Qed.

Lemma client_events_edit_job w n prompt model_id orientation reference :
  Py.truthy_str reference = true → Py.contains "bfl" model_id = true →
  Forall (edit_job prompt model_id reference)
         (generate_image w n prompt model_id orientation (Some reference)).2.
Proof.
  intros Htrue Hbfl.
  destruct (generate_image_events w n prompt model_id orientation (Some reference))
    as (rest & -> & Hrest).
  constructor.
  - unfold posted, build_payload, edit_job.
    destruct (get_dimensions model_id orientation) as [width height].
    cbn [truthy_opt]. rewrite Htrue, Hbfl.
    cbn [andb alter list_alter fmap list_fmap base_payload post_has default].
    unfold id. split_and!.
    + by rewrite lookup_insert_eq.
    + by rewrite lookup_insert_ne.
    + by rewrite lookup_insert_ne.
  - eapply Forall_impl; [done|]. intros e He.
    apply edit_job_other. by destruct e.
Qed.

(** The loop of the editing path adds to the trace only the events of its
    client calls, photos, and the failure notice. *)
Lemma edit_loop_events (Q : event → Prop) w prompt model_key m0 m orientation
    orientation_text num_images reference :
  lookup_model model_key = Ret m0 →
  (∀ n, Forall Q (generate_image w n prompt (model_id m0) orientation reference).2) →
  (∀ photo text, Q (ReplyPhoto photo text)) → (∀ text, Q (EditText text)) →
  ∀ range,
    ensures (all_events Q)
            (edit_loop w prompt model_key m orientation orientation_text num_images
               reference range)
            (all_events Q).
Proof.
  intros Hkey Hclient Hphoto Hedit.
  induction range as [|i range IH]; [by intros s Hs|].
  cbn [edit_loop]. rewrite Hkey. apply ensures_bind_ret.
  eapply (ensures_bind _ (all_events Q)); [by apply all_events_call_client| |done].
  intros image. destruct (truthy_opt image).
  - eapply (ensures_bind _ (all_events Q)); [apply ensures_lift| |done].
    intros bytes.
    eapply (ensures_bind _ (all_events Q)); [by apply all_events_tg| |done].
    intros _. apply IH.
  - eapply (ensures_bind _ (all_events Q)); [by apply all_events_tg| |done].
    intros _. apply ensures_ret.
Qed.

(** X12.  Every job that [handle_photo_with_caption] posts carries, as its
    one reference image, the base64 text of the body downloaded for the
    last (largest) photo of the message, the prompt of the caption's
    request, and the id of Kontext Max when the request has the max flag,
    of Kontext Pro otherwise. *)
Theorem X12_edit_jobs_carry_reference (w : world) (f : files) (msg : message) :
  let request := caption_request (PyText.strip (default EmptyString (msg_caption msg))) in
  let file_id := default EmptyString (last (msg_photo msg)) in
  Forall (edit_job (parsed_prompt request)
            (if parsed_max request then "bfl:4@1" else "bfl:3@1")
            (default EmptyString (upload_outcome w f file_id)))
         (trace (handle_photo_with_caption w f msg start_state).2).
Proof.
  intros request file_id.
  remember (default EmptyString (upload_outcome w f file_id)) as ref0 eqn:Href.
  set (Q := edit_job (parsed_prompt request)
              (if parsed_max request then "bfl:4@1" else "bfl:3@1") ref0).
  enough (ensures (all_events Q) (handle_photo_with_caption w f msg) (all_events Q))
    as H by (apply H; constructor).
  assert (Htg : ∀ e, is_post e = false →
            ensures (all_events Q) (Handler.tg w e) (all_events Q))
    by (intros e He; apply all_events_tg; by apply edit_job_other).
  unfold handle_photo_with_caption. subst file_id.
  destruct (msg_photo msg) as [|p0 ps] eqn:Hphotos; [apply ensures_ret|].
  destruct (negb (truthy_opt (msg_caption msg))); [apply ensures_ret|].
  destruct (negb (Py.truthy_str (PyText.strip (default EmptyString (msg_caption msg)))));
    [by apply Htg|].
  subst Q request.
  destruct (caption_request (PyText.strip (default EmptyString (msg_caption msg))))
    as [[[o cnt] mx] prompt].
  unfold parsed_prompt, parsed_max in *. cbn [fst snd] in *.
  rewrite lookup_edit_model. apply ensures_bind_ret.
  set (m := if mx then Model "bfl:4@1" "Kontext Max" true
            else Model "bfl:3@1" "Kontext Pro" true).
  set (Q := edit_job prompt (if mx then "bfl:4@1" else "bfl:3@1") ref0) in *.
  eapply (ensures_bind _ (all_events Q)); [by apply Htg| |done].
  intros _.
  eapply (ensures_try _ (all_events Q)); [|by apply Htg|done].
  destruct (last (p0 :: ps)) as [p|]; [|by intros s Hs].
  apply ensures_bind_ret. cbn [default] in *. unfold id in *.
  eapply (ensures_bind_val _ _
            (λ a s, all_events Q s ∧ (a = None ∨ a = upload_outcome w f p))).
  { intros s Hs. destruct (upload_run w f p s) as [-> | ->];
      cbn [fst snd]; (split; [|tauto]); unfold all_events in *; cbn [trace];
      [done|].
    apply Forall_app. split; [done|]. by repeat constructor. }
  intros a. destruct (truthy_opt a) eqn:Ha; cbn [negb].
  2: { eapply ensures_weaken; [by apply (Htg (EditText reference_failed_notice))| |done].
       by intros s [? _]. }
  eapply (ensures_weaken (λ s, all_events Q s ∧ a = upload_outcome w f p));
    [| |intros s Hs; exact Hs].
  2: { intros s [? [-> | ->]]; [done|by split]. }
  intros s [Hs ->]. revert s Hs. fold (ensures (all_events Q)
    (Handler.bind (Handler.tg w (EditText (editing_text (model_name m)
       (orientation_text_of o) prompt (num_text_of cnt))))
       (λ _, Handler.bind
               (edit_loop w prompt (edit_model_key mx) m o (orientation_text_of o) cnt
                  (upload_outcome w f p) (seq 0 (Z.to_nat cnt)))
               (λ e, match e with
                     | Completed => Handler.tg w DeleteMessage
                     | Returned => Handler.ret tt
                     end)))
    (all_events Q)).
  destruct (upload_outcome w f p) as [reference|] eqn:Hup; [|done].
  cbn [truthy_opt default] in *. unfold id in *. subst ref0.
  eapply (ensures_bind _ (all_events Q)); [by apply Htg| |done].
  intros _. eapply (ensures_bind _ (all_events Q)); [| |done].
  - apply (edit_loop_events Q w prompt (edit_model_key mx) m); subst Q m.
    + apply lookup_edit_model.
    + intros n. destruct mx; by apply client_events_edit_job.
    + intros photo text. by apply edit_job_other.
    + intros text. by apply edit_job_other.
  - intros []; [by apply Htg|apply ensures_ret].
Qed.

Lemma X12_edit_jobs_carry_reference_witness :
  count is_post
    (trace (handle_photo_with_caption (example_world good_answer) (example_files 200)
              (Message ["small"; "large"] (Some "  -MAX -n 2 a pencil sketch "))
              start_state).2) = 2 ∧
  Forall (edit_job "a pencil sketch" "bfl:4@1" "b64:photo")
    (trace (handle_photo_with_caption (example_world good_answer) (example_files 200)
              (Message ["small"; "large"] (Some "  -MAX -n 2 a pencil sketch "))
              start_state).2).
Proof.
  split; [by vm_compute|].
  exact (X12_edit_jobs_carry_reference (example_world good_answer) (example_files 200)
           (Message ["small"; "large"] (Some "  -MAX -n 2 a pencil sketch "))).
Defined.
